(** * MoltBook plugin: the request bridge and its four tools

    A shallow embedding of [src/moltbook-tools.ts].  JavaScript strings are
    sequences of UTF-16 code units, numbers are binary64 values
    ([spec_float] with [prec = 53], [emax = 1024]), and the asynchronous
    functions are written in a state-and-exception monad whose state holds
    the armed timers and the log of requests handed to [fetch]. *)

From Stdlib Require Import ZArith NArith List String Ascii Bool Lia DecimalString.
From Stdlib Require Import Floats.SpecFloat.
From stdpp Require Import gmap strings.
Import ListNotations.

Set Warnings "-register-all".

Local Open Scope N_scope.

(** ** The JavaScript platform: strings *)

Module JS.

(** A string value: its UTF-16 code units. *)
Definition jsstring := list N.

(** A source literal (ASCII only in this program). *)
Definition lit (s : string) : jsstring :=
  map N_of_ascii (list_ascii_of_string s).

Definition str_eqb (a b : jsstring) : bool := bool_decide (a = b).

(** ECMAScript WhiteSpace and LineTerminator code points, the ones
    [String.prototype.trim] strips. *)
Definition is_white_space (c : N) : bool :=
  (c =? 9) || (c =? 10) || (c =? 11) || (c =? 12) || (c =? 13) ||
  (c =? 32) || (c =? 160) || (c =? 5760) ||
  ((8192 <=? c) && (c <=? 8202)) ||
  (c =? 8232) || (c =? 8233) || (c =? 8239) || (c =? 8287) ||
  (c =? 12288) || (c =? 65279).

Fixpoint trimStart (s : jsstring) : jsstring :=
  match s with
  | [] => []
  | c :: r => if is_white_space c then trimStart r else s
  end.

Definition trimEnd (s : jsstring) : jsstring := rev (trimStart (rev s)).

(** [s.trim()] *)
Definition trim (s : jsstring) : jsstring := trimEnd (trimStart s).

(** [s.startsWith(p)] *)
Fixpoint startsWith (s p : jsstring) {struct p} : bool :=
  match p, s with
  | [], _ => true
  | _ :: _, [] => false
  | a :: p', b :: s' => (a =? b) && startsWith s' p'
  end.

(** ToBoolean on a string: the empty string is the only falsy one. *)
Definition truthy_str (s : jsstring) : bool :=
  match s with [] => false | _ => true end.

(** [a || b] where [a] is a string or [undefined] and [b] a string. *)
Definition or_str (a : option jsstring) (b : jsstring) : jsstring :=
  match a with
  | Some s => if truthy_str s then s else b
  | None => b
  end.

(** [a || b] where both may be [undefined]. *)
Definition or_opt (a b : option jsstring) : option jsstring :=
  match a with
  | Some s => if truthy_str s then a else b
  | None => b
  end.

(** Decimal digits of a natural number, as a string. *)
Definition decimal (n : N) : jsstring :=
  lit (NilZero.string_of_uint (N.to_uint n)).

(** ** The JavaScript platform: numbers *)

(** A binary64 number. *)
Definition number := spec_float.

Definition NaN : number := S754_nan.

(** The number a small integer literal denotes. *)
Definition of_Z (z : Z) : number := binary_normalize 53 1024 z 0 false.

(** The relational operator [a < b] ([false] when either side is NaN). *)
Definition lt (a b : number) : bool := SFltb a b.

(** [a <= b] *)
Definition le (a b : number) : bool := SFleb a b.

(** ToBoolean on a number: [NaN], [+0] and [-0] are falsy. *)
Definition truthy_num (x : number) : bool :=
  match x with
  | S754_nan | S754_zero _ => false
  | _ => true
  end.

(** [Math.max(a, b)]: NaN if either argument is, and [+0] above [-0]. *)
Definition Math_max (a b : number) : number :=
  match a, b with
  | S754_nan, _ | _, S754_nan => S754_nan
  | S754_zero sa, S754_zero sb => S754_zero (sa && sb)
  | _, _ => if lt a b then b else a
  end.

(** [Math.min(a, b)]: NaN if either argument is, and [-0] below [+0]. *)
Definition Math_min (a b : number) : number :=
  match a, b with
  | S754_nan, _ | _, S754_nan => S754_nan
  | S754_zero sa, S754_zero sb => S754_zero (sa || sb)
  | _, _ => if lt b a then b else a
  end.

(** The binary64 value nearest to [s * 10^e10] (ties to even): how a
    decimal numeral is read. *)
Definition of_decimal (neg : bool) (s : positive) (e10 : Z) : number :=
  match e10 with
  | Zneg k =>
      let d := Z.pow_pos 10 k in
      let sh := Z.max 0 (Z.log2 d - Z.log2 (Zpos s) + 64) in
      let n := (Zpos s * 2 ^ sh)%Z in
      let q := (n / d)%Z in
      let q' := if (n mod d =? 0)%Z then q else Z.lor q 1 in
      binary_normalize 53 1024 (if neg then - q' else q')%Z (- sh)%Z neg
  | _ => binary_round 53 1024 neg (s * Z.to_pos (10 ^ e10)) 0
  end.

(** [x < 10^n] for the positive rational [a / b]. *)
Definition below_pow10 (a b : Z) (n : Z) : bool :=
  (if 0 <=? n then a <? 10 ^ n * b else a * 10 ^ (- n) <? b)%Z.

(** The least [n] at or above [from] with [a / b < 10^n]. *)
Fixpoint magnitude_up (fuel : nat) (a b : Z) (from : Z) : Z :=
  match fuel with
  | O => from
  | S fuel' =>
      if below_pow10 a b from then from else magnitude_up fuel' a b (from + 1)%Z
  end.

(** The least [n] at or below [from] with [a / b < 10^n], given [a / b < 10^from]. *)
Fixpoint magnitude_down (fuel : nat) (a b : Z) (from : Z) : Z :=
  match fuel with
  | O => from
  | S fuel' =>
      if below_pow10 a b (from - 1) then magnitude_down fuel' a b (from - 1)%Z
      else from
  end.

(** The [n] with [10^(n-1) <= a / b < 10^n]; a finite binary64 value lies
    between [10^-324] and [10^309]. *)
Definition magnitude (a b : Z) : Z :=
  if below_pow10 a b 0 then magnitude_down 400 a b 0 else magnitude_up 400 a b 1.

(** [floor (a / b / 10^t)] *)
Definition scaled_floor (a b t : Z) : Z :=
  (if 0 <=? t then a / (b * 10 ^ t) else (a * 10 ^ (- t)) / b)%Z.

(** Sign of [|a/b - lo * 10^t| - |hi * 10^t - a/b|] for [lo*10^t <= a/b <= hi*10^t]. *)
Definition nearer (a b t lo hi : Z) : comparison :=
  (if 0 <=? t
   then (2 * a) ?= (lo + hi) * 10 ^ t * b
   else (2 * a * 10 ^ (- t)) ?= (lo + hi) * b)%Z.

(** The digits [s], their count [k] and the exponent [n] of
    Number::toString: [k] least such that some [s] of [k] digits has
    [s * 10^(n-k)] read back as [x]; of two such [s] the nearer to [x]. *)
Fixpoint shortest (fuel : nat) (x : number) (a b n k : Z) : Z * Z * Z :=
  let t := (n - k)%Z in
  let lo := scaled_floor a b t in
  let hi := (lo + 1)%Z in
  let reads s := match s with
                 | Zpos p => SFeqb (of_decimal false p t) x
                 | _ => false
                 end in
  let pick s := if (s =? 10 ^ k)%Z then (10 ^ (k - 1), k, n + 1)%Z else (s, k, n) in
  match fuel with
  | O => (lo, k, n)
  | S fuel' =>
      match reads lo, reads hi with
      | true, false => pick lo
      | false, true => pick hi
      | true, true =>
          match nearer a b t lo hi with
          | Lt => pick lo
          | Gt => pick hi
          | Eq => if Z.even lo then pick lo else pick hi
          end
      | false, false => shortest fuel' x a b n (k + 1)%Z
      end
  end.

Definition zeros (n : Z) : jsstring := repeat 48 (Z.to_nat n).

(** Number::toString for a positive finite [x = a / b]. *)
Definition positive_toString (x : number) (a b : Z) : jsstring :=
  let n0 := magnitude a b in
  let '(s, k, n) := shortest 17 x a b n0 1 in
  let ds := decimal (Z.to_N s) in
  let e := (n - 1)%Z in
  let exponent := [101] ++ (if (0 <=? e)%Z then [43] else [45])
                        ++ decimal (Z.to_N (Z.abs e)) in
  if ((k <=? n) && (n <=? 21))%Z then ds ++ zeros (n - k)
  else if ((0 <? n) && (n <=? 21))%Z
       then firstn (Z.to_nat n) ds ++ [46] ++ skipn (Z.to_nat n) ds
  else if ((-6 <? n) && (n <=? 0))%Z then [48; 46] ++ zeros (- n) ++ ds
  else if (k =? 1)%Z then ds ++ exponent
  else firstn 1 ds ++ [46] ++ skipn 1 ds ++ exponent.

(** [String(x)] for a number: Number::toString with radix 10. *)
Definition Number_toString (x : number) : jsstring :=
  match x with
  | S754_nan => lit "NaN"
  | S754_zero _ => lit "0"
  | S754_infinity s => (if s then [45] else []) ++ lit "Infinity"
  | S754_finite s m e =>
      let a := (if 0 <=? e then Zpos m * 2 ^ e else Zpos m)%Z in
      let b := (if 0 <=? e then 1 else 2 ^ (- e))%Z in
      (if s then [45] else []) ++ positive_toString (S754_finite false m e) a b
  end.

(** ** The JavaScript platform: URL encoding *)

Inductive code_point :=
| Scalar (c : N)
| LoneSurrogate (u : N).

Definition is_lead (u : N) : bool := (55296 <=? u) && (u <=? 56319).
Definition is_trail (u : N) : bool := (56320 <=? u) && (u <=? 57343).

(** The code points of a string: a lead surrogate followed by a trail
    surrogate is one code point, any other surrogate stands alone. *)
Fixpoint code_points (s : jsstring) : list code_point :=
  match s with
  | [] => []
  | u :: r =>
      if is_lead u then
        match r with
        | v :: r' =>
            if is_trail v
            then Scalar (65536 + (u - 55296) * 1024 + (v - 56320)) :: code_points r'
            else LoneSurrogate u :: code_points r
        | [] => [LoneSurrogate u]
        end
      else if is_trail u then LoneSurrogate u :: code_points r
      else Scalar u :: code_points r
  end.

Definition utf8 (c : N) : list N :=
  if c <? 128 then [c]
  else if c <? 2048 then [192 + c / 64; 128 + c mod 64]
  else if c <? 65536 then [224 + c / 4096; 128 + (c / 64) mod 64; 128 + c mod 64]
  else [240 + c / 262144; 128 + (c / 4096) mod 64; 128 + (c / 64) mod 64;
        128 + c mod 64].

Definition hex_upper (d : N) : N := if d <? 10 then 48 + d else 55 + d.
Definition hex_lower (d : N) : N := if d <? 10 then 48 + d else 87 + d.

(** [%XX] for one byte. *)
Definition percent (b : N) : jsstring := [37; hex_upper (b / 16); hex_upper (b mod 16)].

Definition percent_encode (c : N) : jsstring := concat (map percent (utf8 c)).

Definition is_alnum (c : N) : bool :=
  ((48 <=? c) && (c <=? 57)) || ((65 <=? c) && (c <=? 90)) ||
  ((97 <=? c) && (c <=? 122)).

(** The characters [encodeURIComponent] leaves alone: [A-Z a-z 0-9 - _ . ! ~ * ' ( )]. *)
Definition uri_unreserved (c : N) : bool :=
  is_alnum c || (c =? 45) || (c =? 95) || (c =? 46) || (c =? 33) ||
  (c =? 126) || (c =? 42) || (c =? 39) || (c =? 40) || (c =? 41).

Fixpoint encode_uri_points (l : list code_point) : option jsstring :=
  match l with
  | [] => Some []
  | LoneSurrogate _ :: _ => None
  | Scalar c :: r =>
      match encode_uri_points r with
      | Some t => Some ((if uri_unreserved c then [c] else percent_encode c) ++ t)
      | None => None
      end
  end.

(** [encodeURIComponent(s)]; [None] is the URIError it throws on a lone
    surrogate. *)
Definition encodeURIComponent (s : jsstring) : option jsstring :=
  encode_uri_points (code_points s).

(** One code point under the application/x-www-form-urlencoded serializer;
    a lone surrogate has become U+FFFD when the string was stored. *)
Definition form_encode_point (p : code_point) : jsstring :=
  match p with
  | LoneSurrogate _ => percent_encode 65533
  | Scalar c =>
      if c =? 32 then [43]
      else if is_alnum c || (c =? 42) || (c =? 45) || (c =? 46) || (c =? 95)
      then [c]
      else percent_encode c
  end.

Definition form_encode (s : jsstring) : jsstring :=
  concat (map form_encode_point (code_points s)).

Fixpoint join (sep : jsstring) (parts : list jsstring) : jsstring :=
  match parts with
  | [] => []
  | [p] => p
  | p :: r => p ++ sep ++ join sep r
  end.

(** [new URLSearchParams(init).toString()] for a record [init], given as
    its entries in property order. *)
Definition URLSearchParams_toString (init : list (jsstring * jsstring)) : jsstring :=
  join [38] (map (fun kv => form_encode (fst kv) ++ [61] ++ form_encode (snd kv)) init).

(** ** The JavaScript platform: values and JSON *)

Inductive value :=
| VUndefined
| VNull
| VBool (b : bool)
| VNumber (n : number)
| VString (s : jsstring)
| VArray (items : list value)
| VObject (fields : list (jsstring * value)).

(** [o.k] on an ordinary object without inherited [k]; [undefined] when
    the property is missing, and on primitives and arrays for the names
    this program reads. *)
Fixpoint lookup_field (fields : list (jsstring * value)) (k : jsstring) : value :=
  match fields with
  | [] => VUndefined
  | (k', v) :: r => if str_eqb k' k then v else lookup_field r k
  end.

(** [v?.k] *)
Definition get_optional (v : value) (k : jsstring) : value :=
  match v with
  | VObject fields => lookup_field fields k
  | _ => VUndefined
  end.

(** The index a property name denotes when it is an array index: a
    canonical decimal numeral below [2^32 - 1]. *)
Definition array_index (k : jsstring) : option N :=
  match k with
  | [] => None
  | c :: r =>
      if forallb (fun d => (48 <=? d) && (d <=? 57)) k
         && ((negb (c =? 48)) || (match r with [] => true | _ => false end))
         && (Nat.leb (List.length k) 10)
      then let i := fold_left (fun acc d => 10 * acc + (d - 48)) k 0 in
           if i <? 4294967295 then Some i else None
      else None
  end.

Section Fields.
Context {A : Type}.

(** Where a new index-named property goes: index names come first, in
    ascending order. *)
Fixpoint insert_index (fields : list (jsstring * A)) (i : N) (k : jsstring)
    (v : A) : list (jsstring * A) :=
  match fields with
  | [] => [(k, v)]
  | (k', v') :: r =>
      match array_index k' with
      | Some j => if j <? i then (k', v') :: insert_index r i k v
                  else (k, v) :: fields
      | None => (k, v) :: fields
      end
  end.

Fixpoint replace_field (fields : list (jsstring * A)) (k : jsstring)
    (v : A) : option (list (jsstring * A)) :=
  match fields with
  | [] => None
  | (k', v') :: r =>
      if str_eqb k' k then Some ((k', v) :: r)
      else match replace_field r k v with
           | Some r' => Some ((k', v') :: r')
           | None => None
           end
  end.

(** CreateDataProperty on an ordinary object: an existing property keeps
    its place, a new one is added in property order. *)
Definition set_field (fields : list (jsstring * A)) (k : jsstring) (v : A)
    : list (jsstring * A) :=
  match replace_field fields k v with
  | Some fields' => fields'
  | None =>
      match array_index k with
      | Some i => insert_index fields i k v
      | None => fields ++ [(k, v)]
      end
  end.

(** [{ ...a, ...b }] *)
Definition spread (a b : list (jsstring * A)) : list (jsstring * A) :=
  fold_left (fun acc kv => set_field acc (fst kv) (snd kv)) b a.

End Fields.

Definition hex4_lower (u : N) : jsstring :=
  [hex_lower (u / 4096); hex_lower ((u / 256) mod 16); hex_lower ((u / 16) mod 16);
   hex_lower (u mod 16)].

(** QuoteJSONString, one code point at a time. *)
Definition quote_point (p : code_point) : jsstring :=
  match p with
  | LoneSurrogate u => [92; 117] ++ hex4_lower u
  | Scalar c =>
      if c =? 8 then [92; 98]
      else if c =? 9 then [92; 116]
      else if c =? 10 then [92; 110]
      else if c =? 12 then [92; 102]
      else if c =? 13 then [92; 114]
      else if c =? 34 then [92; 34]
      else if c =? 92 then [92; 92]
      else if c <? 32 then [92; 117] ++ hex4_lower c
      else if c <? 65536 then [c]
      else [55296 + (c - 65536) / 1024; 56320 + (c - 65536) mod 1024]
  end.

Definition quote (s : jsstring) : jsstring :=
  [34] ++ concat (map quote_point (code_points s)) ++ [34].

Definition is_finite (x : number) : bool :=
  match x with
  | S754_nan | S754_infinity _ => false
  | _ => true
  end.

(** SerializeJSONProperty with the given [gap] at the given [indent];
    [None] is the [undefined] result. *)
Fixpoint serialize (gap indent : jsstring) (v : value) : option jsstring :=
  let inner := indent ++ gap in
  let wrap (l r : N) (parts : list jsstring) : jsstring :=
    match parts, gap with
    | [], _ => [l; r]
    | _, [] => [l] ++ join [44] parts ++ [r]
    | _, _ => [l; 10] ++ inner ++ join ([44; 10] ++ inner) parts ++ [10] ++ indent ++ [r]
    end in
  match v with
  | VUndefined => None
  | VNull => Some (lit "null")
  | VBool b => Some (lit (if b then "true" else "false"))
  | VNumber n => Some (if is_finite n then Number_toString n else lit "null")
  | VString s => Some (quote s)
  | VArray items =>
      Some (wrap 91 93
              (map (fun x => match serialize gap inner x with
                             | Some t => t
                             | None => lit "null"
                             end) items))
  | VObject fields =>
      Some (wrap 123 125
              (concat
                 (map (fun kv => match serialize gap inner (snd kv) with
                                 | Some t =>
                                     [quote (fst kv) ++ [58]
                                        ++ (match gap with [] => [] | _ => [32] end)
                                        ++ t]
                                 | None => []
                                 end) fields)))
  end.

(** [JSON.stringify(v)] *)
Definition JSON_stringify (v : value) : option jsstring := serialize [] [] v.

(** [JSON.stringify(v, null, 2)] *)
Definition JSON_stringify_2 (v : value) : option jsstring := serialize [32; 32] [] v.

(** A template literal's [${x}] for a string or [undefined]. *)
Definition to_string_opt (x : option jsstring) : jsstring :=
  match x with
  | Some t => t
  | None => lit "undefined"
  end.

(** *** [JSON.parse]

    The text is read one code unit at a time by a pushdown automaton: a
    stack of open arrays and objects, what the grammar allows next, and
    the token being read.  A step that the JSON grammar does not allow has
    no successor, which is the SyntaxError of [JSON.parse]. *)

Inductive frame :=
| FArray (items : list value)                          (* newest first *)
| FObject (fields : list (jsstring * value)) (key : jsstring).

Inductive expect :=
| EValue
| EValueOrClose
| EKeyOrClose
| EKey
| EColon (key : jsstring)
| ECommaOrClose
| EDone (v : value).

Inductive escape :=
| NoEscape
| Backslash
| Unicode (digits : list N).

Inductive mode :=
| MIdle
| MString (acc : jsstring) (esc : escape)              (* newest first *)
| MNumber (acc : jsstring)                              (* newest first *)
| MLiteral (rest : jsstring) (v : value).

Record pstate := {
  stack : list frame;
  want : expect;
  lexing : mode;
}.

Definition is_digit (c : N) : bool := (48 <=? c) && (c <=? 57).

Definition is_json_ws (c : N) : bool :=
  (c =? 32) || (c =? 9) || (c =? 10) || (c =? 13).

Definition hex_value (c : N) : option N :=
  if is_digit c then Some (c - 48)
  else if (65 <=? c) && (c <=? 70) then Some (c - 55)
  else if (97 <=? c) && (c <=? 102) then Some (c - 87)
  else None.

Fixpoint span_digits (s : jsstring) : jsstring * jsstring :=
  match s with
  | c :: r => if is_digit c
              then let '(ds, rest) := span_digits r in (c :: ds, rest)
              else ([], s)
  | [] => ([], [])
  end.

Definition digits_value (ds : jsstring) : Z :=
  fold_left (fun acc d => 10 * acc + Z.of_N (d - 48))%Z ds 0%Z.

(** The value of a JSON number token; [None] when the characters do not
    form one. *)
Definition number_of_lexeme (s : jsstring) : option number :=
  let '(neg, s1) := match s with
                    | c :: r => if c =? 45 then (true, r) else (false, s)
                    | [] => (false, s)
                    end in
  let '(ip, s2) := span_digits s1 in
  let int_ok := match ip with
                | [] => false
                | [_] => true
                | c :: _ => negb (c =? 48)
                end in
  let frac := match s2 with
              | c :: r => if c =? 46
                          then let '(fp, s3) := span_digits r in
                               match fp with [] => None | _ => Some (fp, s3) end
                          else Some ([], s2)
              | [] => Some ([], s2)
              end in
  match frac with
  | None => None
  | Some (fp, s3) =>
      let exp := match s3 with
                 | [] => Some 0%Z
                 | c :: r =>
                     if (c =? 101) || (c =? 69) then
                       let '(eneg, r') := match r with
                                          | d :: r'' => if d =? 45 then (true, r'')
                                                        else if d =? 43 then (false, r'')
                                                        else (false, r)
                                          | [] => (false, r)
                                          end in
                       match span_digits r' with
                       | ([], _) => None
                       | (ds, []) => Some (if eneg then - digits_value ds
                                           else digits_value ds)%Z
                       | (_, _ :: _) => None
                       end
                     else None
                 end in
      match exp with
      | None => None
      | Some e =>
          if int_ok then
            match digits_value (ip ++ fp) with
            | Zpos m => Some (of_decimal neg m (e - Z.of_nat (List.length fp)))
            | _ => Some (S754_zero neg)
            end
          else None
      end
  end.

Definition idle (stack : list frame) (want : expect) : pstate :=
  {| stack := stack; want := want; lexing := MIdle |}.

(** A value has been read: it goes into the innermost open container. *)
Definition complete (stack : list frame) (v : value) : pstate :=
  match stack with
  | [] => idle [] (EDone v)
  | FArray items :: st => idle (FArray (v :: items) :: st) ECommaOrClose
  | FObject fields key :: st => idle (FObject (set_field fields key v) [] :: st) ECommaOrClose
  end.

Definition wants_value (e : expect) : bool :=
  match e with
  | EValue | EValueOrClose => true
  | _ => false
  end.

Definition complete_string (st : pstate) (s : jsstring) : option pstate :=
  match want st with
  | EValue | EValueOrClose => Some (complete (stack st) (VString s))
  | EKeyOrClose | EKey => Some (idle (stack st) (EColon s))
  | _ => None
  end.

Definition start (st : pstate) (m : mode) : option pstate :=
  if wants_value (want st)
  then Some {| stack := stack st; want := want st; lexing := m |}
  else None.

Definition step_idle (st : pstate) (c : N) : option pstate :=
  if is_json_ws c then Some st
  else if c =? 34 then
    match want st with
    | EValue | EValueOrClose | EKeyOrClose | EKey =>
        Some {| stack := stack st; want := want st; lexing := MString [] NoEscape |}
    | _ => None
    end
  else if c =? 91 then
    if wants_value (want st) then Some (idle (FArray [] :: stack st) EValueOrClose)
    else None
  else if c =? 123 then
    if wants_value (want st) then Some (idle (FObject [] [] :: stack st) EKeyOrClose)
    else None
  else if c =? 93 then
    match want st, stack st with
    | (EValueOrClose | ECommaOrClose), FArray items :: rest =>
        Some (complete rest (VArray (rev items)))
    | _, _ => None
    end
  else if c =? 125 then
    match want st, stack st with
    | (EKeyOrClose | ECommaOrClose), FObject fields _ :: rest =>
        Some (complete rest (VObject fields))
    | _, _ => None
    end
  else if c =? 44 then
    match want st, stack st with
    | ECommaOrClose, FArray _ :: _ => Some (idle (stack st) EValue)
    | ECommaOrClose, FObject _ _ :: _ => Some (idle (stack st) EKey)
    | _, _ => None
    end
  else if c =? 58 then
    match want st, stack st with
    | EColon k, FObject fields _ :: rest => Some (idle (FObject fields k :: rest) EValue)
    | _, _ => None
    end
  else if (c =? 45) || is_digit c then start st (MNumber [c])
  else if c =? 116 then start st (MLiteral (lit "rue") (VBool true))
  else if c =? 102 then start st (MLiteral (lit "alse") (VBool false))
  else if c =? 110 then start st (MLiteral (lit "ull") VNull)
  else None.

Definition step_string (st : pstate) (acc : jsstring) (esc : escape) (c : N)
    : option pstate :=
  let continue acc' esc' :=
    Some {| stack := stack st; want := want st; lexing := MString acc' esc' |} in
  match esc with
  | NoEscape =>
      if c =? 34 then complete_string st (rev acc)
      else if c =? 92 then continue acc Backslash
      else if c <? 32 then None
      else continue (c :: acc) NoEscape
  | Backslash =>
      if (c =? 34) || (c =? 92) || (c =? 47) then continue (c :: acc) NoEscape
      else if c =? 98 then continue (8 :: acc) NoEscape
      else if c =? 102 then continue (12 :: acc) NoEscape
      else if c =? 110 then continue (10 :: acc) NoEscape
      else if c =? 114 then continue (13 :: acc) NoEscape
      else if c =? 116 then continue (9 :: acc) NoEscape
      else if c =? 117 then continue acc (Unicode [])
      else None
  | Unicode ds =>
      match hex_value c with
      | None => None
      | Some d =>
          match ds with
          | [d1; d2; d3] => continue (((d1 * 16 + d2) * 16 + d3) * 16 + d :: acc) NoEscape
          | _ => continue acc (Unicode (ds ++ [d]))
          end
      end
  end.

Definition step (st : pstate) (c : N) : option pstate :=
  match lexing st with
  | MIdle => step_idle st c
  | MString acc esc => step_string st acc esc c
  | MNumber acc =>
      if is_digit c || (c =? 43) || (c =? 45) || (c =? 46) || (c =? 101) || (c =? 69)
      then Some {| stack := stack st; want := want st; lexing := MNumber (c :: acc) |}
      else match number_of_lexeme (rev acc) with
           | Some n => step_idle (complete (stack st) (VNumber n)) c
           | None => None
           end
  | MLiteral rest v =>
      match rest with
      | [] => None
      | x :: [] => if c =? x then Some (complete (stack st) v) else None
      | x :: r => if c =? x
                  then Some {| stack := stack st; want := want st; lexing := MLiteral r v |}
                  else None
      end
  end.

Fixpoint run (st : pstate) (text : jsstring) : option pstate :=
  match text with
  | [] => Some st
  | c :: r => match step st c with
              | Some st' => run st' r
              | None => None
              end
  end.

(** At the end of the text a number may still be open; nothing else may. *)
Definition finish (st : pstate) : option value :=
  let done st := match lexing st, want st with
                 | MIdle, EDone v => Some v
                 | _, _ => None
                 end in
  match lexing st with
  | MNumber acc =>
      match number_of_lexeme (rev acc) with
      | Some n => done (complete (stack st) (VNumber n))
      | None => None
      end
  | _ => done st
  end.

(** [JSON.parse(text)]; [None] is the SyntaxError it throws. *)
Definition JSON_parse (text : jsstring) : option value :=
  match run (idle [] EValue) text with
  | Some st => finish st
  | None => None
  end.

End JS.

Import JS.

(** ** Exceptions and results *)

Inductive exn :=
| Error (message : jsstring)   (* [new Error(message)], thrown by the plugin *)
| URIError                     (* [encodeURIComponent] on a lone surrogate *)
| AbortError                   (* the request was cancelled by [controller.abort()] *)
| FetchFailed.                 (* [fetch] or [res.text()] rejected for a network reason *)

Inductive result (A : Type) :=
| Return (a : A)
| Throw (e : exn).
Arguments Return {A} a.
Arguments Throw {A} e.

(** ** Config resolver *)

Definition SAFE_BASE : jsstring := lit "https://www.moltbook.com/api/v1".

Record PluginCfg := {
  apiBase : option jsstring;
  apiKey : option jsstring;
  defaultSubmolt : option jsstring;
  requestTimeoutMs : option number;
}.

Definition emptyCfg : PluginCfg :=
  {| apiBase := None; apiKey := None; defaultSubmolt := None;
     requestTimeoutMs := None |}.

(** The host object, as far as the plugin reads it. *)
Record Api := { pluginConfig : option PluginCfg }.

(** [process.env], as far as the plugin reads it. *)
Record ProcessEnv := { MOLTBOOK_API_KEY : option jsstring }.

(** The value [getCfg] returns: [{ ...cfg, apiBase }]. *)
Record ResolvedCfg := {
  resolved_apiBase : jsstring;
  resolved_cfg : PluginCfg;
}.

Definition unsafe_apiBase_error : exn :=
  Error (lit "Unsafe apiBase. Must use " ++ SAFE_BASE).

(** [api.pluginConfig ?? {}] *)
Definition cfg_of (api : Api) : PluginCfg :=
  match pluginConfig api with
  | Some c => c
  | None => emptyCfg
  end.

(** The [apiBase] constant of [getCfg]: [(cfg.apiBase || SAFE_BASE).trim()]. *)
Definition apiBase_of (api : Api) : jsstring :=
  trim (or_str (apiBase (cfg_of api)) SAFE_BASE).

Definition getCfg (api : Api) : result ResolvedCfg :=
  if negb (startsWith (apiBase_of api) SAFE_BASE) then Throw unsafe_apiBase_error
  else Return {| resolved_apiBase := apiBase_of api; resolved_cfg := cfg_of api |}.

Definition missing_key_error : exn :=
  Error (lit "Missing MoltBook API key (plugin config apiKey or MOLTBOOK_API_KEY)").

Definition getApiKey (env : ProcessEnv) (api : Api) : result jsstring :=
  match getCfg api with
  | Throw e => Throw e
  | Return cfg =>
      let key :=
        trim (or_str (or_opt (apiKey (resolved_cfg cfg)) (MOLTBOOK_API_KEY env)) []) in
      if negb (truthy_str key) then Throw missing_key_error
      else Return key
  end.

(** ** The world a call runs in *)

Record Request := {
  url : jsstring;
  method : option jsstring;
  headers : list (jsstring * jsstring);
  body : option jsstring;
}.

(** The second argument of [callMoltbook]. *)
Record RequestInit := {
  init_method : option jsstring;
  init_body : option jsstring;
  init_headers : option (list (jsstring * jsstring));
}.

(** A response whose body has been read: [res.status], [res.headers] and
    the result of [await res.text()]. *)
Record Response := {
  status : N;
  res_headers : list (jsstring * jsstring);
  text : jsstring;
}.

(** What the network does with one request.  Whether the reply or the
    timer comes first is the network's choice. *)
Inductive Outcome :=
| Responded (res : Response)   (* [fetch] and [res.text()] both resolved *)
| Failed                       (* one of them rejected for a network reason *)
| TimedOut.                    (* the timer fired first and aborted the request *)

(** The armed timers (handle and delay), the next free timer handle, and
    the requests handed to [fetch] so far, newest first. *)
Record World := {
  timers : gmap nat number;
  next_timer : nat;
  fetched : list Request;
}.

(** A computation that reads and changes the world and returns or throws. *)
Definition M (A : Type) : Type := World -> result A * World.

Definition ret {A} (a : A) : M A := fun w => (Return a, w).

Definition throw {A} (e : exn) : M A := fun w => (Throw e, w).

Definition bind {A B} (m : M A) (k : A -> M B) : M B :=
  fun w => match m w with
           | (Return a, w') => k a w'
           | (Throw e, w') => (Throw e, w')
           end.

Notation "x <- m ;; k" := (bind m (fun x => k))
  (at level 100, m at next level, right associativity).

(** A synchronous function that returns or throws, called from [M]. *)
Definition lift {A} (r : result A) : M A := fun w => (r, w).

(** [try { m } finally { fin }]: [fin] runs whether [m] returned or threw;
    the outcome is [m]'s unless [fin] itself throws. *)
Definition try_finally {A} (m : M A) (fin : M unit) : M A :=
  fun w => match m w with
           | (r, w') => match fin w' with
                        | (Return _, w'') => (r, w'')
                        | (Throw e, w'') => (Throw e, w'')
                        end
           end.

(** [setTimeout(callback, delay)] arms a fresh timer and returns its handle. *)
Definition setTimeout (delay : number) : M nat :=
  fun w => (Return (next_timer w),
            {| timers := <[next_timer w := delay]> (timers w);
               next_timer := S (next_timer w);
               fetched := fetched w |}).

(** [clearTimeout(handle)] disarms the timer, if it is still armed. *)
Definition clearTimeout (handle : nat) : M unit :=
  fun w => (Return tt,
            {| timers := delete handle (timers w);
               next_timer := next_timer w;
               fetched := fetched w |}).

Definition ok (res : Response) : bool := (200 <=? status res) && (status res <=? 299).

Definition lower (c : N) : N := if (65 <=? c) && (c <=? 90) then c + 32 else c.

(** [headers.get(name)]: the values of the header, joined by a comma and a
    space; [None] is the [null] of a missing header. *)
Definition Headers_get (hs : list (jsstring * jsstring)) (name : jsstring)
    : option jsstring :=
  match filter (fun kv => str_eqb (map lower (fst kv)) (map lower name)) hs with
  | [] => None
  | found => Some (join [44; 32] (map snd found))
  end.

(** ** HTTP bridge *)

Section Bridge.

Variable env : ProcessEnv.

(** The network: the outcome of a request, given the earlier requests. *)
Variable net : list Request -> Request -> Outcome.

(** [await fetch(url, { ..., signal })] followed by [await res.text()],
    with the timer [handle] wired to the request's abort signal.  A timer
    that fires is no longer armed. *)
Definition fetch (handle : nat) (req : Request) : M Response :=
  fun w =>
    let sent := {| timers := timers w; next_timer := next_timer w;
                   fetched := req :: fetched w |} in
    match net (fetched w) req with
    | Responded res => (Return res, sent)
    | Failed => (Throw FetchFailed, sent)
    | TimedOut => (Throw AbortError,
                   {| timers := delete handle (timers w);
                      next_timer := next_timer w;
                      fetched := req :: fetched w |})
    end.

(** The [data] constant of [callMoltbook]: the parsed body, [null] for an
    empty body, [{ raw: text }] when parsing throws. *)
Definition parsed_body (text : jsstring) : value :=
  if truthy_str text
  then match JSON_parse text with
       | Some v => v
       | None => VObject [(lit "raw", VString text)]
       end
  else VNull.

(** The [detail] constant: [typeof data?.error === "string" ? data.error
    : JSON.stringify(data)]. *)
Definition error_detail (data : value) : jsstring :=
  match get_optional data (lit "error") with
  | VString e => e
  | _ => to_string_opt (JSON_stringify data)
  end.

(** The tail of the message: [retryAfter ? ` (retry-after=${retryAfter}s)` : ""]. *)
Definition retry_hint (retryAfter : option jsstring) : jsstring :=
  match retryAfter with
  | Some r => if truthy_str r then lit " (retry-after=" ++ r ++ lit "s)" else []
  | None => []
  end.

Definition upstream_error (res : Response) (data : value) : exn :=
  let retryAfter := Headers_get (res_headers res) (lit "retry-after") in
  let detail := error_detail data in
  Error (lit "MoltBook API " ++ decimal (status res) ++ lit ": " ++ detail
           ++ retry_hint retryAfter).

(** The [timeoutMs] constant. *)
Definition timeout_of (cfg : ResolvedCfg) : number :=
  match requestTimeoutMs (resolved_cfg cfg) with
  | Some t => if truthy_num t && lt (of_Z 0) t then t else of_Z 15000
  | None => of_Z 15000
  end.

(** The request handed to [fetch]. *)
Definition request_of (cfg : ResolvedCfg) (apiKey path : jsstring) (init : RequestInit)
    : Request :=
  {| url := resolved_apiBase cfg ++ path;
     method := init_method init;
     headers :=
       spread [(lit "Authorization", lit "Bearer " ++ apiKey);
               (lit "Content-Type", lit "application/json")]
              (match init_headers init with Some h => h | None => [] end);
     body := init_body init |}.

Definition callMoltbook (api : Api) (path : jsstring) (init : RequestInit) : M value :=
  cfg <- lift (getCfg api) ;;
  apiKey <- lift (getApiKey env api) ;;
  timeout <- setTimeout (timeout_of cfg) ;;
  try_finally
    (res <- fetch timeout (request_of cfg apiKey path init) ;;
     let data := parsed_body (text res) in
     if negb (ok res) then throw (upstream_error res data)
     else ret data)
    (clearTimeout timeout).

(** ** Tool definitions *)

(** The TypeBox schema of one parameter. *)
Inductive TSchema :=
| Type_String (minLength : option nat) (default : option jsstring)
| Type_Number (default : option number)
| Type_Boolean (default : option bool)
| Type_Optional (inner : TSchema).

Record Tool := {
  name : jsstring;
  description : jsstring;
  parameters : list (string * TSchema);
  execute : jsstring -> gmap string value -> M value;
}.

(** [params.k] *)
Definition prop (params : gmap string value) (k : string) : value :=
  default VUndefined (params !! k).

Definition GET : RequestInit :=
  {| init_method := Some (lit "GET"); init_body := None; init_headers := None |}.

(** [{ content: [{ type: "text", text: JSON.stringify(out, null, 2) }], details: out }] *)
Definition envelope (out : value) : value :=
  VObject
    [(lit "content",
      VArray [VObject [(lit "type", VString (lit "text"));
                       (lit "text", match JSON_stringify_2 out with
                                    | Some t => VString t
                                    | None => VUndefined
                                    end)]]);
     (lit "details", out)].

Definition createMoltbookStatusTool (api : Api) : Tool :=
  {| name := lit "moltbook_status";
     description := lit "Check MoltBook auth and claim status for current agent.";
     parameters := [];
     execute := fun _id _ =>
       me <- callMoltbook api (lit "/agents/me") GET ;;
       status <- callMoltbook api (lit "/agents/status") GET ;;
       ret (envelope (VObject [(lit "me", me); (lit "status", status)])) |}.

(** [(typeof v === "string" && v.trim())], as the string it yields or
    [None] for [false]. *)
Definition trimmed_if_string (v : value) : option jsstring :=
  match v with
  | VString s => Some (trim s)
  | _ => None
  end.

(** [typeof v === "string" ? v.trim() : ""] *)
Definition trimmed_or_empty (v : value) : jsstring :=
  match v with
  | VString s => trim s
  | _ => []
  end.

Definition title_required : exn := Error (lit "title is required").

Definition content_or_url_required : exn :=
  Error (lit "Either content or url is required").

(** [!x] for a string or [undefined]. *)
Definition blank (x : option jsstring) : bool :=
  match x with
  | Some s => negb (truthy_str s)
  | None => true
  end.

(** The object literal [{ submolt, title, ...(content ? { content } : {}),
    ...(url ? { url } : {}) }]. *)
Definition post_body (submolt title : jsstring) (content url : option jsstring) : value :=
  VObject
    (spread
       (spread [(lit "submolt", VString submolt); (lit "title", VString title)]
               (match content with
                | Some c => if truthy_str c then [(lit "content", VString c)] else []
                | None => []
                end))
       (match url with
        | Some u => if truthy_str u then [(lit "url", VString u)] else []
        | None => []
        end)).

Definition createMoltbookPostTool (api : Api) : Tool :=
  {| name := lit "moltbook_post";
     description := lit "Create a text or link post on MoltBook.";
     parameters :=
       [("submolt", Type_Optional (Type_String None None));
        ("title", Type_String (Some 1%nat) None);
        ("content", Type_Optional (Type_String None None));
        ("url", Type_Optional (Type_String None None))];
     execute := fun _id params =>
       cfg <- lift (getCfg api) ;;
       let submolt :=
         or_str (trimmed_if_string (prop params "submolt"))
                (or_str (defaultSubmolt (resolved_cfg cfg)) (lit "general")) in
       let title := trimmed_or_empty (prop params "title") in
       let content := trimmed_if_string (prop params "content") in
       let url := trimmed_if_string (prop params "url") in
       if negb (truthy_str title) then throw title_required
       else if blank content && blank url then throw content_or_url_required
       else
         out <- callMoltbook api (lit "/posts")
                  {| init_method := Some (lit "POST");
                     init_body := JSON_stringify (post_body submolt title content url);
                     init_headers := None |} ;;
         ret (envelope out) |}.

(** [typeof v === "number" ? Math.max(1, Math.min(50, v)) : dflt] *)
Definition clamp_limit (v : value) (dflt : Z) : number :=
  match v with
  | VNumber n => Math_max (of_Z 1) (Math_min (of_Z 50) n)
  | _ => of_Z dflt
  end.

(** [typeof v === "string" ? v : dflt] *)
Definition string_or (v : value) (dflt : jsstring) : jsstring :=
  match v with
  | VString s => s
  | _ => dflt
  end.

(** The [personalized] constant of the feed tool: [params.personalized !== false]. *)
Definition feed_personalized (params : gmap string value) : bool :=
  match prop params "personalized" with
  | VBool false => false
  | _ => true
  end.

(** The [limit] constant of the feed tool. *)
Definition feed_limit (params : gmap string value) : number :=
  clamp_limit (prop params "limit") 10.

(** The [qs] constant of the feed tool, serialized. *)
Definition feed_qs (params : gmap string value) : jsstring :=
  URLSearchParams_toString
    [(lit "sort", string_or (prop params "sort") (lit "new"));
     (lit "limit", Number_toString (feed_limit params))].

(** The [path] constant of the feed tool; computing it throws when
    [encodeURIComponent] does. *)
Definition feed_path (params : gmap string value) : result jsstring :=
  let submolt := trimmed_or_empty (prop params "submolt") in
  if feed_personalized params then Return (lit "/feed?" ++ feed_qs params)
  else if truthy_str submolt then
    match encodeURIComponent submolt with
    | Some encoded => Return (lit "/posts?" ++ feed_qs params ++ lit "&submolt=" ++ encoded)
    | None => Throw URIError
    end
  else Return (lit "/posts?" ++ feed_qs params).

Definition createMoltbookFeedTool (api : Api) : Tool :=
  {| name := lit "moltbook_feed";
     description := lit "Fetch MoltBook feed or global posts.";
     parameters :=
       [("personalized", Type_Optional (Type_Boolean (Some true)));
        ("sort", Type_Optional (Type_String None (Some (lit "new"))));
        ("limit", Type_Optional (Type_Number (Some (of_Z 10))));
        ("submolt", Type_Optional (Type_String None None))];
     execute := fun _id params =>
       path <- lift (feed_path params) ;;
       out <- callMoltbook api path GET ;;
       ret (envelope out) |}.

Definition query_required : exn := Error (lit "query is required").

(** The [query] constant of the search tool. *)
Definition search_query (params : gmap string value) : jsstring :=
  trimmed_or_empty (prop params "query").

(** The path the search tool requests. *)
Definition search_path (params : gmap string value) : jsstring :=
  lit "/search?" ++
  URLSearchParams_toString
    [(lit "q", search_query params);
     (lit "type", string_or (prop params "type") (lit "all"));
     (lit "limit", Number_toString (clamp_limit (prop params "limit") 20))].

Definition createMoltbookSearchTool (api : Api) : Tool :=
  {| name := lit "moltbook_search";
     description := lit "Semantic search over MoltBook posts/comments.";
     parameters :=
       [("query", Type_String (Some 2%nat) None);
        ("type", Type_Optional (Type_String None (Some (lit "all"))));
        ("limit", Type_Optional (Type_Number (Some (of_Z 20))))];
     execute := fun _id params =>
       if negb (truthy_str (search_query params)) then throw query_required
       else
         out <- callMoltbook api (search_path params) GET ;;
         ret (envelope out) |}.

End Bridge.

(** [register(api)]: the four tools, in registration order. *)
Definition register (env : ProcessEnv) (net : list Request -> Request -> Outcome)
    (api : Api) : list Tool :=
  [createMoltbookStatusTool env net api; createMoltbookPostTool env net api;
   createMoltbookFeedTool env net api; createMoltbookSearchTool env net api].

(** ** The vocabulary of the specification *)

(** The error kinds, as the exceptions the code throws for them. *)
Definition UnsafeEndpoint (e : exn) : Prop := e = unsafe_apiBase_error.

Definition MissingCredential (e : exn) : Prop := e = missing_key_error.

Definition InvalidArgument (e : exn) : Prop :=
  e = title_required \/ e = content_or_url_required \/ e = query_required.

Definition UpstreamError (e : exn) : Prop :=
  exists (code : N) (detail hint : jsstring),
    e = Error (lit "MoltBook API " ++ decimal code ++ lit ": " ++ detail ++ hint).

(** [t] occurs in [s]. *)
Definition includes (s t : jsstring) : Prop :=
  exists before after, s = before ++ t ++ after.

(** The trusted prefix followed by anything. *)
Definition has_trusted_prefix (s : jsstring) : Prop :=
  exists suffix, s = SAFE_BASE ++ suffix.

(** A sub-path extension of the trusted prefix, in the words of the
    specification: the prefix, a slash, and further path. *)
Definition sub_path_extension (s : jsstring) : Prop :=
  exists rest, s = SAFE_BASE ++ [47] ++ rest.

(** [lo <= x <= hi] on numbers. *)
Definition in_range (lo hi : Z) (x : number) : bool :=
  le (of_Z lo) x && le x (of_Z hi).

(** What a bridged call returns or throws, by what the network did. *)
Definition reply (o : Outcome) : result value :=
  match o with
  | Responded res =>
      if ok res then Return (parsed_body (text res))
      else Throw (upstream_error res (parsed_body (text res)))
  | Failed => Throw FetchFailed
  | TimedOut => Throw AbortError
  end.

(** Timer handles are handed out in increasing order: none at or above
    the next free handle is armed. *)
Definition handles_fresh (w : World) : Prop :=
  forall i, (next_timer w <= i)%nat -> timers w !! i = None.

(** The world before any call. *)
Definition initial_world : World :=
  {| timers := ∅; next_timer := 0; fetched := [] |}.

(** ** Scenarios *)

(** A host whose plugin config sets only the base URL and the key. *)
Definition api_with_base (base : option jsstring) (key : option jsstring) : Api :=
  {| pluginConfig :=
       Some {| apiBase := base; apiKey := key; defaultSubmolt := None;
               requestTimeoutMs := None |} |}.

(** The default base URL and a key. *)
Definition api_ok : Api := api_with_base None (Some (lit "secret")).

(** A base URL on another host, and no key. *)
Definition api_unsafe : Api :=
  api_with_base (Some (lit "https://moltbook.example/api/v1")) None.

Definition env_none : ProcessEnv := {| MOLTBOOK_API_KEY := None |}.

(** A network that treats every request the same way. *)
Definition fixed_net (o : Outcome) : list Request -> Request -> Outcome :=
  fun _ _ => o.

(** A text written with an apostrophe wherever it has a double quote. *)
Definition quoted (s : string) : jsstring :=
  map (fun c => if c =? 39 then 34 else c) (lit s).

Definition rate_limited : Response :=
  {| status := 429;
     res_headers := [(lit "retry-after", lit "30")];
     text := quoted "{'error':'slow down'}" |}.

Definition not_json : Response :=
  {| status := 200; res_headers := []; text := lit "<html>oops</html>" |}.

Definition empty_body : Response :=
  {| status := 200; res_headers := []; text := [] |}.

Definition empty_list : Response :=
  {| status := 200; res_headers := []; text := lit "[]" |}.

(** Parameter objects. *)
Definition params_one_letter : gmap string value :=
  {["query" := VString (lit "a")]}.

Definition params_padded_letter : gmap string value :=
  {["query" := VString (lit " a ")]}.

Definition params_nan_limit : gmap string value :=
  {["limit" := VNumber NaN]}.

Definition params_cats : gmap string value :=
  <["personalized" := VBool false]> {["submolt" := VString (lit "cats")]}.

Definition params_blank_title : gmap string value :=
  <["title" := VString (lit "  ")]> {["content" := VString (lit "World")]}.

Definition params_title_only : gmap string value :=
  <["title" := VString (lit "Hello")]> {["content" := VString (lit " ")]}.

(** ** Readings of the code used by the further properties *)

(** The string [getApiKey] trims: [cfg.apiKey || process.env.MOLTBOOK_API_KEY || ""]. *)
Definition selected_key (env : ProcessEnv) (api : Api) : jsstring :=
  or_str (or_opt (apiKey (cfg_of api)) (MOLTBOOK_API_KEY env)) [].

(** A plugin config with its base URL replaced. *)
Definition with_apiBase (c : PluginCfg) (base : jsstring) : PluginCfg :=
  {| apiBase := Some base; apiKey := apiKey c; defaultSubmolt := defaultSubmolt c;
     requestTimeoutMs := requestTimeoutMs c |}.

(** A string neither starts nor ends with white space. *)
Definition no_outer_space (s : jsstring) : Prop :=
  trimStart s = s /\ trimStart (rev s) = rev s.

(** [o[k]] on an object literal given as its entries; [None] when the
    property is missing. *)
Fixpoint find_field {A : Type} (fields : list (jsstring * A)) (k : jsstring) : option A :=
  match fields with
  | [] => None
  | (k', v) :: r => if str_eqb k' k then Some v else find_field r k
  end.

(** The characters that separate the parts of a URL query. *)
Definition is_delimiter (c : N) : bool :=
  (c =? 38) || (c =? 61) || (c =? 63) || (c =? 35) || (c =? 47) || (c =? 32).

(** No character of [s] is a delimiter. *)
Definition delimiter_free (s : jsstring) : Prop :=
  Forall (fun c => is_delimiter c = false) s.

(** Every request sent between [w] and [w'] goes to the trusted prefix. *)
Definition only_trusted (w w' : World) : Prop :=
  forall req, In req (fetched w') ->
              In req (fetched w) \/ has_trusted_prefix (url req).

(** A computation that sends requests to the trusted prefix only and,
    started with fresh handles, leaves the armed timers as they were and
    the handles fresh. *)
Definition well_behaved {A : Type} (m : M A) : Prop :=
  forall w, only_trusted w (snd (m w))
            /\ (handles_fresh w ->
                handles_fresh (snd (m w)) /\ timers (snd (m w)) = timers w).

(** The [submolt] constant of the post tool. *)
Definition post_submolt (cfg : ResolvedCfg) (params : gmap string value) : jsstring :=
  or_str (trimmed_if_string (prop params "submolt"))
         (or_str (defaultSubmolt (resolved_cfg cfg)) (lit "general")).

(** A parser state that holds no [undefined]: neither as the finished
    value nor as the value of the literal being read. *)
Definition defined_state (st : pstate) : Prop :=
  (forall v, want st = EDone v -> v <> VUndefined)
  /\ (forall rest v, lexing st = MLiteral rest v -> v <> VUndefined).

(** The result envelope with the text [t] and the details [out]. *)
Definition envelope_of (t : jsstring) (out : value) : value :=
  VObject
    [(lit "content",
      VArray [VObject [(lit "type", VString (lit "text")); (lit "text", VString t)]]);
     (lit "details", out)].

(** The entry an optional string adds to the post body. *)
Definition optional_entry (name : string) (x : option jsstring)
    : list (jsstring * value) :=
  match x with
  | Some s => if truthy_str s then [(lit name, VString s)] else []
  | None => []
  end.

(** Further scenarios. *)
Definition env_key : ProcessEnv := {| MOLTBOOK_API_KEY := Some (lit " from-env ") |}.

(** The default base URL and no configured key. *)
Definition api_no_key : Api := api_with_base None None.

(** A configured key of two spaces. *)
Definition api_blank_key : Api := api_with_base None (Some (lit "  ")).

(** A configured timeout of 2500 milliseconds. *)
Definition api_timeout : Api :=
  {| pluginConfig :=
       Some {| apiBase := None; apiKey := Some (lit "secret"); defaultSubmolt := None;
               requestTimeoutMs := Some (of_Z 2500) |} |}.

Definition bad_gateway : Response :=
  {| status := 502; res_headers := []; text := lit "<html>Bad Gateway</html>" |}.

(** A caller that passes its own Authorization header. *)
Definition init_own_auth : RequestInit :=
  {| init_method := Some (lit "GET"); init_body := None;
     init_headers := Some [(lit "Authorization", lit "Basic abc")] |}.

(** A post with a title and a content, and one with a link besides. *)
Definition params_hello : gmap string value :=
  <["title" := VString (lit " Hello ")]> {["content" := VString (lit "World")]}.

Definition params_link : gmap string value :=
  <["submolt" := VString (lit " cats ")]>
    (<["url" := VString (lit "https://example.org/a")]> params_hello).

(** A submolt that is one lead surrogate, as the JSON text
    [{"personalized":false,"submolt":"\ud800"}] carries it. *)
Definition params_lone_surrogate : gmap string value :=
  <["personalized" := VBool false]> {["submolt" := VString [55296]]}.

Definition params_limit_500 : gmap string value := {["limit" := VNumber (of_Z 500)]}.

Definition params_limit_0 : gmap string value := {["limit" := VNumber (of_Z 0)]}.

(** A host whose plugin config names a default community. *)
Definition api_news : Api :=
  {| pluginConfig :=
       Some {| apiBase := None; apiKey := Some (lit "secret");
               defaultSubmolt := Some (lit "news"); requestTimeoutMs := None |} |}.

(** A post whose four strings have white space around them. *)
Definition params_padded_post : gmap string value :=
  <["submolt" := VString (lit "  cats ")]>
    (<["title" := VString (lit " Hello  ")]>
       (<["content" := VString (lit "  World ")]>
          {["url" := VString (lit " https://example.org/a  ")]})).

(** A general-posts request whose sort and submolt hold separators. *)
Definition params_cats_dogs : gmap string value :=
  <["personalized" := VBool false]>
    (<["sort" := VString (lit "top&limit=999")]>
       {["submolt" := VString (lit "cats & dogs?")]}).

(** * Properties *)

(** ** Strings *)

Lemma startsWith_spec (s p : jsstring) :
  startsWith s p = true <-> exists suffix, s = p ++ suffix.
Proof.
  revert s. induction p as [|a p IH]; intros s; simpl.
  - split; [intros _; exists s; reflexivity | reflexivity].
  - destruct s as [|b s].
    + split; [discriminate | intros [suffix H]; discriminate].
    + rewrite andb_true_iff, N.eqb_eq, IH. split.
      * intros [-> [suffix ->]]. exists suffix. reflexivity.
      * intros [suffix H]. injection H as -> ->. split; [reflexivity | eauto].
Qed.

Lemma has_trusted_prefix_startsWith (s : jsstring) :
  has_trusted_prefix s <-> startsWith s SAFE_BASE = true.
Proof. unfold has_trusted_prefix. symmetry. apply startsWith_spec. Qed.

Lemma sub_path_extension_startsWith (s : jsstring) :
  sub_path_extension s <-> startsWith s (SAFE_BASE ++ [47]) = true.
Proof.
  unfold sub_path_extension. rewrite startsWith_spec.
  split; intros [r ->]; exists r; rewrite <- app_assoc; reflexivity.
Qed.

Lemma truthy_str_false (s : jsstring) : truthy_str s = false <-> s = [].
Proof. destruct s; simpl; split; congruence. Qed.

Lemma truthy_str_true (s : jsstring) : truthy_str s = true <-> s <> [].
Proof. destruct s; simpl; split; congruence. Qed.

Lemma trim_SAFE_BASE : trim SAFE_BASE = SAFE_BASE.
Proof. vm_compute. reflexivity. Qed.

(** ** Numbers *)

Ltac compare_cases :=
  repeat match goal with
  | H : context [Pos.compare_cont Eq ?a ?b] |- _ =>
      change (Pos.compare_cont Eq a b) with (Pos.compare a b) in H
  | |- context [Pos.compare_cont Eq ?a ?b] =>
      change (Pos.compare_cont Eq a b) with (Pos.compare a b)
  | H : context [Z.compare ?a ?b] |- _ => destruct (Z.compare_spec a b)
  | |- context [Z.compare ?a ?b] => destruct (Z.compare_spec a b)
  | H : context [Pos.compare ?a ?b] |- _ => destruct (Pos.compare_spec a b)
  | |- context [Pos.compare ?a ?b] => destruct (Pos.compare_spec a b)
  end;
  simpl in *; subst; try discriminate; try reflexivity; try lia.

(** Order facts of the comparison of numbers. *)
Lemma lt_le (a b : number) : lt a b = true -> le a b = true.
Proof. unfold lt, le, SFltb, SFleb. destruct (SFcompare a b) as [[| |]|]; congruence. Qed.

Lemma SFcompare_Eq_finite (s : bool) (m : positive) (e : Z) (b : number) :
  SFcompare (S754_finite s m e) b = Some Eq -> b = S754_finite s m e.
Proof.
  destruct b as [[] | [] | | [] m' e']; destruct s; simpl; try discriminate;
    intros H; injection H as H; compare_cases.
Qed.

Lemma SFcompare_refl_finite (s : bool) (m : positive) (e : Z) :
  SFcompare (S754_finite s m e) (S754_finite s m e) = Some Eq.
Proof.
  destruct s; simpl; rewrite Z.compare_refl, Pos.compare_cont_refl; reflexivity.
Qed.

Lemma lt_asym (a b : number) : lt a b = true -> lt b a = false.
Proof.
  unfold lt, SFltb.
  destruct a as [[] | [] | | [] ma ea], b as [[] | [] | | [] mb eb]; simpl;
    try discriminate; try reflexivity; intros H; compare_cases.
Qed.

Lemma lt_trans (a b c : number) : lt a b = true -> lt b c = true -> lt a c = true.
Proof.
  unfold lt, SFltb.
  destruct a as [[] | [] | | [] ma ea], b as [[] | [] | | [] mb eb],
           c as [[] | [] | | [] mc ec]; simpl;
    try discriminate; try reflexivity; intros H1 H2; compare_cases.
Qed.

Lemma le_not_lt_eq (s : bool) (m : positive) (e : Z) (b : number) :
  le (S754_finite s m e) b = true -> lt (S754_finite s m e) b = false ->
  b = S754_finite s m e.
Proof.
  unfold le, lt, SFleb, SFltb. intros Hle Hlt. apply SFcompare_Eq_finite.
  destruct (SFcompare (S754_finite s m e) b) as [[| |]|]; congruence.
Qed.

Lemma le_not_lt_eq_r (a : number) (s : bool) (m : positive) (e : Z) :
  le a (S754_finite s m e) = true -> lt a (S754_finite s m e) = false ->
  a = S754_finite s m e.
Proof.
  unfold le, lt, SFleb, SFltb. intros Hle Hlt.
  destruct a as [[] | [] | | [] ma ea]; destruct s; simpl in *;
    try discriminate; compare_cases.
Qed.

Lemma le_refl_finite (s : bool) (m : positive) (e : Z) :
  le (S754_finite s m e) (S754_finite s m e) = true.
Proof. unfold le, SFleb. rewrite SFcompare_refl_finite. reflexivity. Qed.

(** Clamping between two finite bounds. *)
Lemma clamp_between (ml mh : positive) (el eh : Z) (n : number) :
  let lo := S754_finite false ml el in
  let hi := S754_finite false mh eh in
  lt lo hi = true -> n <> NaN ->
  let r := Math_max lo (Math_min hi n) in
  le lo r && le r hi = true
  /\ (le lo n && le n hi = true -> r = n)
  /\ (lt n lo = true -> r = lo)
  /\ (lt hi n = true -> r = hi).
Proof.
  intros lo hi Hlohi Hn r.
  assert (Hmin : Math_min hi n = if lt n hi then n else hi).
  { destruct n as [[] | [] | | [] m e]; try reflexivity. exfalso. apply Hn. reflexivity. }
  assert (Hmax : forall x, x <> NaN -> Math_max lo x = if lt lo x then x else lo).
  { intros x Hx. destruct x as [[] | [] | | [] m e]; try reflexivity.
    exfalso. apply Hx. reflexivity. }
  subst r. rewrite Hmin.
  destruct (lt n hi) eqn:Hnhi.
  - rewrite (Hmax n Hn). destruct (lt lo n) eqn:Hlon.
    + rewrite (lt_le _ _ Hlon), (lt_le _ _ Hnhi). repeat apply conj; try reflexivity.
      * intros H. apply lt_asym in H. congruence.
      * intros H. apply lt_asym in H. congruence.
    + rewrite (lt_le _ _ Hlohi). unfold lo at 1 2. rewrite le_refl_finite.
      repeat apply conj; try reflexivity.
      * intros H. apply andb_true_iff in H as [H _]. symmetry.
        apply (le_not_lt_eq false ml el n H Hlon).
      * intros H. apply lt_asym in H. congruence.
  - rewrite (Hmax hi) by discriminate. rewrite Hlohi.
    rewrite (lt_le _ _ Hlohi). unfold hi at 1 2. rewrite le_refl_finite.
    repeat apply conj; try reflexivity.
    + intros H. apply andb_true_iff in H as [_ H]. symmetry.
      apply (le_not_lt_eq_r n false mh eh H Hnhi).
    + intros H. rewrite (lt_trans _ _ _ H Hlohi) in Hnhi. discriminate.
Qed.

Lemma clamp_limit_number (n : number) (dflt : Z) :
  n <> NaN ->
  let r := clamp_limit (VNumber n) dflt in
  in_range 1 50 r = true
  /\ (in_range 1 50 n = true -> r = n)
  /\ (lt n (of_Z 1) = true -> r = of_Z 1)
  /\ (lt (of_Z 50) n = true -> r = of_Z 50).
Proof.
  intros Hn. unfold clamp_limit, in_range.
  apply (clamp_between 4503599627370496 7036874417766400 (-52) (-47) n);
    [vm_compute; reflexivity | exact Hn].
Qed.

Lemma lt_false_le (a b : number) :
  a <> NaN -> b <> NaN -> lt a b = false -> le b a = true.
Proof.
  intros Ha Hb. unfold lt, le, SFltb, SFleb.
  destruct a as [[] | [] | | [] ma ea], b as [[] | [] | | [] mb eb]; simpl;
    try reflexivity; try discriminate;
    try (exfalso; apply Ha; reflexivity); try (exfalso; apply Hb; reflexivity);
    intros H; compare_cases.
Qed.

(** ** Config resolver *)

Lemma getCfg_cases (api : Api) :
  (startsWith (apiBase_of api) SAFE_BASE = true /\
   getCfg api = Return {| resolved_apiBase := apiBase_of api; resolved_cfg := cfg_of api |})
  \/ (startsWith (apiBase_of api) SAFE_BASE = false /\
      getCfg api = Throw unsafe_apiBase_error).
Proof.
  unfold getCfg. destruct (startsWith (apiBase_of api) SAFE_BASE); simpl; auto.
Qed.

(** C2, as the code has it: config resolution succeeds exactly when the
    trimmed base URL starts with the trusted prefix, as a string.  A base
    URL without that prefix is rejected with the unsafe-endpoint error, and
    every accepted base URL is the trusted prefix followed by some suffix;
    the suffix need not begin a new path segment. *)
Theorem getCfg_allow_list (api : Api) :
  (has_trusted_prefix (apiBase_of api) ->
   getCfg api =
   Return {| resolved_apiBase := apiBase_of api; resolved_cfg := cfg_of api |}) /\
  (~ has_trusted_prefix (apiBase_of api) ->
   exists e, getCfg api = Throw e /\ UnsafeEndpoint e) /\
  (forall cfg, getCfg api = Return cfg -> has_trusted_prefix (resolved_apiBase cfg)).
Proof.
  rewrite has_trusted_prefix_startsWith.
  destruct (getCfg_cases api) as [[Hs ->] | [Hs ->]]; rewrite Hs.
  - split; [reflexivity |]. split; [intros H; exfalso; auto |].
    intros cfg [= <-]. simpl. apply has_trusted_prefix_startsWith, Hs.
  - split; [discriminate |]. split; [| discriminate].
    intros _. exists unsafe_apiBase_error. split; reflexivity.
Qed.

Lemma getCfg_allow_list_witness :
  getCfg (api_with_base (Some (lit " https://www.moltbook.com/api/v1/beta ")) None) =
  Return {| resolved_apiBase := lit "https://www.moltbook.com/api/v1/beta";
            resolved_cfg :=
              cfg_of (api_with_base (Some (lit " https://www.moltbook.com/api/v1/beta ")) None) |}
  /\ exists e, getCfg (api_with_base (Some (lit "https://moltbook.example/api/v1")) None)
               = Throw e /\ UnsafeEndpoint e.
Proof.
  split.
  - apply (proj1 (getCfg_allow_list
                    (api_with_base (Some (lit " https://www.moltbook.com/api/v1/beta ")) None))).
    apply has_trusted_prefix_startsWith. vm_compute. reflexivity.
  - apply (proj1 (proj2 (getCfg_allow_list
                    (api_with_base (Some (lit "https://moltbook.example/api/v1")) None)))).
    rewrite has_trusted_prefix_startsWith. vm_compute. discriminate.
Defined.

(** C2 fails as stated: a base URL that continues the trusted prefix
    without a slash is accepted, and it is neither the prefix nor a
    sub-path of it. *)
Lemma getCfg_accepts_non_subpath :
  let base := lit "https://www.moltbook.com/api/v1evil" in
  let api := api_with_base (Some base) None in
  getCfg api = Return {| resolved_apiBase := base; resolved_cfg := cfg_of api |}
  /\ base <> SAFE_BASE
  /\ ~ sub_path_extension base.
Proof.
  split; [vm_compute; reflexivity |]. split; [vm_compute; discriminate |].
  rewrite sub_path_extension_startsWith. vm_compute. discriminate.
Qed.

(** C3, as the code has it: the configured base URL is selected whenever it
    is present and not the empty string (the test comes before trimming)
    and is then trimmed; when it is absent or the empty string the default
    is used and resolution succeeds.  A configured value that is not empty
    but blank after trimming is not replaced by the default. *)
Theorem getCfg_apiBase_selection (api : Api) :
  (forall s, apiBase (cfg_of api) = Some s -> s <> [] -> apiBase_of api = trim s) /\
  (apiBase (cfg_of api) = None \/ apiBase (cfg_of api) = Some [] ->
   apiBase_of api = SAFE_BASE /\
   getCfg api = Return {| resolved_apiBase := SAFE_BASE; resolved_cfg := cfg_of api |}) /\
  (forall s, apiBase (cfg_of api) = Some s -> s <> [] -> trim s = [] ->
   getCfg api = Throw unsafe_apiBase_error).
Proof.
  unfold getCfg, apiBase_of. split; [| split].
  - intros s -> Hs. simpl. apply truthy_str_true in Hs. rewrite Hs. reflexivity.
  - intros [-> | ->]; simpl; rewrite trim_SAFE_BASE; split; reflexivity.
  - intros s -> Hs Hblank. simpl. apply truthy_str_true in Hs. rewrite Hs, Hblank.
    reflexivity.
Qed.

Lemma getCfg_apiBase_selection_witness :
  apiBase_of (api_with_base (Some (lit " https://www.moltbook.com/api/v1 ")) None) =
  SAFE_BASE
  /\ getCfg (api_with_base (Some []) None) =
     Return {| resolved_apiBase := SAFE_BASE;
               resolved_cfg := cfg_of (api_with_base (Some []) None) |}
  /\ getCfg {| pluginConfig := None |} =
     Return {| resolved_apiBase := SAFE_BASE; resolved_cfg := emptyCfg |}.
Proof.
  split; [| split].
  - rewrite (proj1 (getCfg_apiBase_selection
                      (api_with_base (Some (lit " https://www.moltbook.com/api/v1 ")) None))
               (lit " https://www.moltbook.com/api/v1 ") eq_refl);
      [vm_compute; reflexivity | vm_compute; discriminate].
  - apply (proj1 (proj2 (getCfg_apiBase_selection (api_with_base (Some []) None)))).
    right. reflexivity.
  - apply (proj1 (proj2 (getCfg_apiBase_selection {| pluginConfig := None |}))).
    left. reflexivity.
Defined.

(** C3 fails as stated: a configured base URL of three spaces is blank
    after trimming, yet the default is not used and resolution fails. *)
Lemma getCfg_blank_apiBase_rejected :
  let api := api_with_base (Some (lit "   ")) None in
  trim (lit "   ") = []
  /\ apiBase_of api <> SAFE_BASE
  /\ getCfg api = Throw unsafe_apiBase_error.
Proof.
  split; [vm_compute; reflexivity |].
  split; [vm_compute; discriminate | vm_compute; reflexivity].
Qed.

Lemma includes_refl (s : jsstring) : includes s s.
Proof. exists [], []. rewrite app_nil_r. reflexivity. Qed.

Lemma includes_app_l (s t u : jsstring) : includes t u -> includes (s ++ t) u.
Proof.
  intros (a & b & ->). exists (s ++ a), b. rewrite <- !app_assoc. reflexivity.
Qed.

Lemma includes_app_r (s t u : jsstring) : includes s u -> includes (s ++ t) u.
Proof.
  intros (a & b & ->). exists a, (b ++ t). rewrite <- !app_assoc. reflexivity.
Qed.

Lemma lookup_field_find (fields : list (jsstring * value)) (k : jsstring) :
  lookup_field fields k =
  match find_field fields k with
  | Some v => v
  | None => VUndefined
  end.
Proof.
  induction fields as [|[k' v] r IH]; simpl; [reflexivity |].
  destruct (str_eqb k' k); [reflexivity | exact IH].
Qed.

(** ** HTTP bridge *)

Section BridgeProperties.

Variable env : ProcessEnv.
Variable net : list Request -> Request -> Outcome.

Lemma getApiKey_config_error (api : Api) (e : exn) :
  getCfg api = Throw e -> getApiKey env api = Throw e.
Proof. unfold getApiKey. intros ->. reflexivity. Qed.

Lemma callMoltbook_config_error (api : Api) path init w (e : exn) :
  getCfg api = Throw e -> callMoltbook env net api path init w = (Throw e, w).
Proof. unfold callMoltbook, bind, lift. intros ->. reflexivity. Qed.

Lemma callMoltbook_key_error (api : Api) path init w cfg (e : exn) :
  getCfg api = Return cfg -> getApiKey env api = Throw e ->
  callMoltbook env net api path init w = (Throw e, w).
Proof. unfold callMoltbook, bind, lift. intros -> ->. reflexivity. Qed.

(** With a resolved config and key, a call arms one timer, hands one
    request to [fetch], and disarms the timer whatever the outcome. *)
Lemma callMoltbook_run (api : Api) path init w cfg key :
  getCfg api = Return cfg -> getApiKey env api = Return key ->
  callMoltbook env net api path init w =
  (reply (net (fetched w) (request_of cfg key path init)),
   {| timers := delete (next_timer w) (<[next_timer w := timeout_of cfg]> (timers w));
      next_timer := S (next_timer w);
      fetched := request_of cfg key path init :: fetched w |}).
Proof.
  intros Hcfg Hkey.
  unfold callMoltbook, bind, lift, setTimeout, try_finally, fetch, clearTimeout.
  rewrite Hcfg, Hkey. simpl.
  destruct (net (fetched w) (request_of cfg key path init)) as [res | |]; simpl.
  - unfold throw, ret. destruct (ok res); reflexivity.
  - reflexivity.
  - rewrite delete_delete_eq. reflexivity.
Qed.

Lemma callMoltbook_cases (api : Api) path init w :
  (exists e, callMoltbook env net api path init w = (Throw e, w)
             /\ (getCfg api = Throw e \/ getApiKey env api = Throw e))
  \/ (exists cfg key, getCfg api = Return cfg /\ getApiKey env api = Return key).
Proof.
  destruct (getCfg api) as [cfg | e] eqn:Hcfg.
  - destruct (getApiKey env api) as [key | e] eqn:Hkey.
    + right. eauto.
    + left. exists e. split; [eapply callMoltbook_key_error; eauto | auto].
  - left. exists e. split; [apply callMoltbook_config_error; auto | auto].
Qed.

(** C10: the allow-list check comes before the credential.  When the
    configured base URL fails the check, a bridged call throws the
    unsafe-endpoint error and leaves the world untouched, whatever the
    key; the missing-credential error is a different exception and is not
    the one thrown, and resolving the key alone fails the same way. *)
Theorem unsafe_endpoint_precedes_credential (api : Api) path init w :
  ~ has_trusted_prefix (apiBase_of api) ->
  callMoltbook env net api path init w = (Throw unsafe_apiBase_error, w)
  /\ getApiKey env api = Throw unsafe_apiBase_error
  /\ UnsafeEndpoint unsafe_apiBase_error
  /\ ~ MissingCredential unsafe_apiBase_error.
Proof.
  intros Hbad.
  assert (Hcfg : getCfg api = Throw unsafe_apiBase_error).
  { destruct (getCfg_cases api) as [[Hs _] | [_ H]]; [| exact H].
    exfalso. apply Hbad, has_trusted_prefix_startsWith, Hs. }
  split; [apply callMoltbook_config_error, Hcfg |].
  split; [apply getApiKey_config_error, Hcfg |].
  split; [reflexivity |].
  unfold MissingCredential. vm_compute. discriminate.
Qed.

(** A bridged call leaves the armed timers as they were, and the handles
    fresh. *)
Lemma callMoltbook_timers (api : Api) path init w :
  handles_fresh w ->
  timers (snd (callMoltbook env net api path init w)) = timers w
  /\ handles_fresh (snd (callMoltbook env net api path init w)).
Proof.
  intros Hfresh.
  destruct (callMoltbook_cases api path init w) as [(e & -> & He) | (cfg & key & Hcfg & Hkey)].
  - simpl. split; [reflexivity | exact Hfresh].
  - rewrite (callMoltbook_run api path init w cfg key Hcfg Hkey). simpl.
    assert (Hnone : timers w !! next_timer w = None) by (apply Hfresh; lia).
    rewrite (delete_insert_id _ _ _ Hnone). split; [reflexivity |].
    intros i Hi. simpl in Hi. apply Hfresh. lia.
Qed.

(** C9: the timer a bridged call arms is disarmed when the call is over,
    however it ends (a parsed body, an upstream error, a network failure
    or a timeout): the armed timers are those armed before the call, and
    the handle the call used is not among them. *)
Theorem callMoltbook_releases_timer (api : Api) path init w :
  handles_fresh w ->
  let w' := snd (callMoltbook env net api path init w) in
  timers w' = timers w
  /\ handles_fresh w'
  /\ (forall cfg key,
        getCfg api = Return cfg -> getApiKey env api = Return key ->
        next_timer w' = S (next_timer w) /\ timers w' !! next_timer w = None).
Proof.
  intros Hfresh w'.
  destruct (callMoltbook_timers api path init w Hfresh) as [Htimers Hfresh'].
  split; [exact Htimers |]. split; [exact Hfresh' |].
  intros cfg key Hcfg Hkey. subst w'.
  rewrite (callMoltbook_run api path init w cfg key Hcfg Hkey) in *. simpl in *.
  split; [reflexivity |]. rewrite Htimers. apply Hfresh. lia.
Qed.

(** The two sequential calls of the status tool leave no timer armed. *)
Lemma status_tool_timers (api : Api) id params w :
  handles_fresh w ->
  timers (snd (execute (createMoltbookStatusTool env net api) id params w)) = timers w.
Proof.
  intros Hfresh. simpl. unfold bind at 1.
  destruct (callMoltbook_timers api (lit "/agents/me") GET w Hfresh) as [H1 Hfresh1].
  destruct (callMoltbook env net api (lit "/agents/me") GET w) as [[me | e] w1];
    simpl in *; [| exact H1].
  unfold bind.
  destruct (callMoltbook_timers api (lit "/agents/status") GET w1 Hfresh1) as [H2 _].
  destruct (callMoltbook env net api (lit "/agents/status") GET w1) as [[st | e] w2];
    simpl in *; congruence.
Qed.

(** C5: a response with a non-success status makes the bridged call throw
    an upstream error.  Its message is [MoltBook API <status>: <detail>]
    followed by [ (retry-after=<value>s)] when the response has a
    retry-after header with a value that is not empty.  The detail is the
    [error] property of the JSON body when the body is an object whose
    [error] is a string; otherwise it is the serialized body: the JSON
    value of the body, [null] for an empty body, and [{ raw: <text> }] for
    a body that is not valid JSON.  So the message includes the status
    code, the detail and the retry-after value. *)
Theorem upstream_error_message (api : Api) path init w cfg key res :
  getCfg api = Return cfg -> getApiKey env api = Return key ->
  net (fetched w) (request_of cfg key path init) = Responded res ->
  ok res = false ->
  let hint := match Headers_get (res_headers res) (lit "retry-after") with
              | Some (c :: r) => lit " (retry-after=" ++ (c :: r) ++ lit "s)"
              | _ => []
              end in
  let message detail :=
    lit "MoltBook API " ++ decimal (status res) ++ lit ": " ++ detail ++ hint in
  let thrown := fst (callMoltbook env net api path init w) in
  (forall fields e,
     JSON_parse (text res) = Some (VObject fields) ->
     find_field fields (lit "error") = Some (VString e) ->
     thrown = Throw (Error (message e)))
  /\ (forall v,
        JSON_parse (text res) = Some v ->
        (forall fields e, v = VObject fields ->
                          find_field fields (lit "error") <> Some (VString e)) ->
        thrown = Throw (Error (message (to_string_opt (JSON_stringify v)))))
  /\ (text res <> [] -> JSON_parse (text res) = None ->
      thrown = Throw (Error (message (to_string_opt
                (JSON_stringify (VObject [(lit "raw", VString (text res))]))))))
  /\ (text res = [] -> thrown = Throw (Error (message (lit "null"))))
  /\ exists msg,
       thrown = Throw (Error msg)
       /\ UpstreamError (Error msg)
       /\ includes msg (decimal (status res))
       /\ (forall r, Headers_get (res_headers res) (lit "retry-after") = Some r ->
             includes msg r
             /\ (r <> [] -> includes msg (lit "retry-after=" ++ r ++ lit "s"))).
Proof.
  intros Hcfg Hkey Hnet Hok hint message thrown.
  assert (Hhint : retry_hint (Headers_get (res_headers res) (lit "retry-after")) = hint).
  { unfold retry_hint, hint.
    destruct (Headers_get (res_headers res) (lit "retry-after")) as [[|c r] |];
      reflexivity. }
  assert (Hthrown : thrown = Throw (Error (message (error_detail (parsed_body (text res)))))).
  { unfold thrown.
    rewrite (callMoltbook_run api path init w cfg key Hcfg Hkey), Hnet.
    unfold reply. rewrite Hok. unfold upstream_error, fst. rewrite Hhint. reflexivity. }
  assert (Hparsed : forall v, JSON_parse (text res) = Some v -> parsed_body (text res) = v).
  { intros v Hv. unfold parsed_body. destruct (text res) as [|c t] eqn:Ht.
    - vm_compute in Hv. discriminate.
    - simpl. rewrite Hv. reflexivity. }
  rewrite Hthrown. repeat apply conj.
  - intros fields e Hp He. rewrite (Hparsed _ Hp). unfold error_detail. simpl.
    rewrite lookup_field_find, He. reflexivity.
  - intros v Hp Hno. rewrite (Hparsed _ Hp). unfold error_detail.
    destruct v as [| | | | | | fields]; try reflexivity.
    simpl. rewrite lookup_field_find.
    destruct (find_field fields (lit "error")) as [[| | | | e | |] |] eqn:Hf;
      try reflexivity.
    exfalso. apply (Hno fields e eq_refl Hf).
  - intros Hne Hp. unfold parsed_body. apply truthy_str_true in Hne.
    rewrite Hne, Hp. reflexivity.
  - intros ->. reflexivity.
  - eexists. split; [reflexivity |].
    split; [unfold UpstreamError, message; eauto |].
    split; [apply includes_app_l, includes_app_r, includes_refl |].
    intros r Hr. unfold message, hint. rewrite Hr. split.
    + do 4 apply includes_app_l. destruct r as [|c r].
      * exists [], []. reflexivity.
      * apply includes_app_l, includes_app_r, includes_refl.
    + intros Hne. destruct r as [|c r]; [contradiction |].
      do 4 apply includes_app_l.
      change (lit " (retry-after=") with (lit " (" ++ lit "retry-after=").
      change (lit "s)") with (lit "s" ++ lit ")").
      exists (lit " ("), (lit ")"). rewrite <- !app_assoc. reflexivity.
Qed.

(** C4, as the code has it: a response with a success status whose body is
    not empty and is not valid JSON makes the bridged call return
    [{ raw: <body text> }]; an empty body makes it return [null]. *)
Theorem non_json_body_is_wrapped (api : Api) path init w cfg key res :
  getCfg api = Return cfg -> getApiKey env api = Return key ->
  net (fetched w) (request_of cfg key path init) = Responded res ->
  ok res = true ->
  (text res <> [] -> JSON_parse (text res) = None ->
   fst (callMoltbook env net api path init w)
   = Return (VObject [(lit "raw", VString (text res))]))
  /\ (text res = [] ->
      fst (callMoltbook env net api path init w) = Return VNull).
Proof.
  intros Hcfg Hkey Hnet Hok.
  rewrite (callMoltbook_run api path init w cfg key Hcfg Hkey), Hnet. simpl.
  rewrite Hok. unfold parsed_body. split.
  - intros Hne Hparse. apply truthy_str_true in Hne. rewrite Hne, Hparse. reflexivity.
  - intros ->. reflexivity.
Qed.

End BridgeProperties.

Lemma initial_world_fresh : handles_fresh initial_world.
Proof. intros i _. apply lookup_empty. Qed.

Lemma api_ok_cfg :
  getCfg api_ok = Return {| resolved_apiBase := SAFE_BASE; resolved_cfg := cfg_of api_ok |}.
Proof. vm_compute. reflexivity. Qed.

Lemma api_ok_key : getApiKey env_none api_ok = Return (lit "secret").
Proof. vm_compute. reflexivity. Qed.

Lemma api_unsafe_base : ~ has_trusted_prefix (apiBase_of api_unsafe).
Proof. rewrite has_trusted_prefix_startsWith. vm_compute. discriminate. Qed.

Lemma unsafe_endpoint_precedes_credential_witness :
  callMoltbook env_none (fixed_net (Responded empty_list)) api_unsafe
    (lit "/agents/me") GET initial_world
  = (Throw unsafe_apiBase_error, initial_world)
  /\ getApiKey env_none api_unsafe = Throw unsafe_apiBase_error
  /\ UnsafeEndpoint unsafe_apiBase_error
  /\ ~ MissingCredential unsafe_apiBase_error.
Proof.
  apply (unsafe_endpoint_precedes_credential env_none (fixed_net (Responded empty_list))
           api_unsafe (lit "/agents/me") GET initial_world).
  rewrite has_trusted_prefix_startsWith. vm_compute. discriminate.
Defined.

Lemma callMoltbook_releases_timer_witness :
  (timers (snd (callMoltbook env_none (fixed_net TimedOut) api_ok
                  (lit "/agents/me") GET initial_world)) = timers initial_world)
  /\ (timers (snd (callMoltbook env_none (fixed_net (Responded rate_limited)) api_ok
                     (lit "/agents/me") GET initial_world)) = timers initial_world)
  /\ (timers (snd (callMoltbook env_none (fixed_net (Responded empty_list)) api_ok
                     (lit "/agents/me") GET initial_world)) = timers initial_world).
Proof.
  split; [| split].
  - apply (proj1 (callMoltbook_releases_timer env_none (fixed_net TimedOut) api_ok
                    (lit "/agents/me") GET initial_world initial_world_fresh)).
  - apply (proj1 (callMoltbook_releases_timer env_none (fixed_net (Responded rate_limited))
                    api_ok (lit "/agents/me") GET initial_world initial_world_fresh)).
  - apply (proj1 (callMoltbook_releases_timer env_none (fixed_net (Responded empty_list))
                    api_ok (lit "/agents/me") GET initial_world initial_world_fresh)).
Defined.

Lemma upstream_error_message_witness :
  fst (callMoltbook env_none (fixed_net (Responded rate_limited)) api_ok
         (lit "/feed") GET initial_world)
  = Throw (Error (lit "MoltBook API 429: slow down (retry-after=30s)")).
Proof.
  assert (Hparse : JSON_parse (text rate_limited)
                   = Some (VObject [(lit "error", VString (lit "slow down"))]))
    by (vm_compute; reflexivity).
  exact (proj1 (upstream_error_message env_none (fixed_net (Responded rate_limited)) api_ok
                  (lit "/feed") GET initial_world _ _ rate_limited
                  api_ok_cfg api_ok_key eq_refl eq_refl)
           _ (lit "slow down") Hparse eq_refl).
Defined.

(** The message of the rate-limit scenario, in full. *)
Example rate_limited_message :
  fst (callMoltbook env_none (fixed_net (Responded rate_limited)) api_ok
         (lit "/feed") GET initial_world)
  = Throw (Error (lit "MoltBook API 429: slow down (retry-after=30s)")).
Proof. vm_compute. reflexivity. Qed.

Lemma non_json_body_is_wrapped_witness :
  fst (callMoltbook env_none (fixed_net (Responded not_json)) api_ok
         (lit "/feed") GET initial_world)
  = Return (VObject [(lit "raw", VString (lit "<html>oops</html>"))]).
Proof.
  apply (proj1 (non_json_body_is_wrapped env_none (fixed_net (Responded not_json)) api_ok
                  (lit "/feed") GET initial_world _ _ not_json
                  api_ok_cfg api_ok_key eq_refl eq_refl)).
  - vm_compute. discriminate.
  - vm_compute. reflexivity.
Defined.

(** C4 fails as stated: an empty body is not valid JSON and the status is
    a success, yet the call returns [null], not [{ raw: "" }]. *)
Lemma empty_body_is_null :
  ok empty_body = true
  /\ JSON_parse (text empty_body) = None
  /\ fst (callMoltbook env_none (fixed_net (Responded empty_body)) api_ok
            (lit "/feed") GET initial_world) = Return VNull
  /\ fst (callMoltbook env_none (fixed_net (Responded empty_body)) api_ok
            (lit "/feed") GET initial_world)
     <> Return (VObject [(lit "raw", VString (text empty_body))]).
Proof.
  split; [reflexivity |]. split; [reflexivity |].
  split; [vm_compute; reflexivity | vm_compute; discriminate].
Qed.

(** ** Search tool *)

Section ToolProperties.

Variable env : ProcessEnv.
Variable net : list Request -> Request -> Outcome.

Lemma InvalidArgument_query_required : InvalidArgument query_required.
Proof. right. right. reflexivity. Qed.

Lemma InvalidArgument_title_required : InvalidArgument title_required.
Proof. left. reflexivity. Qed.

Lemma InvalidArgument_content_or_url_required : InvalidArgument content_or_url_required.
Proof. right. left. reflexivity. Qed.

(** A bridged call followed by wrapping its result changes the world as
    the bridged call does. *)
Lemma enveloped_call_world (api : Api) path init w :
  snd ((out <- callMoltbook env net api path init ;; ret (envelope out)) w)
  = snd (callMoltbook env net api path init w).
Proof.
  unfold bind. destruct (callMoltbook env net api path init w) as [[out | e] w'];
    reflexivity.
Qed.

(** C1, as the code has it: the search tool's [execute] throws the
    invalid-argument error, before any network call, exactly when the query
    is not a string or trims to the empty string.  A query that trims to
    one character or more goes on to the bridged call; with a resolved
    config and key that call hands one request to the network. *)
Theorem search_query_guard (api : Api) id params w :
  let r := execute (createMoltbookSearchTool env net api) id params w in
  (search_query params = [] ->
   r = (Throw query_required, w) /\ InvalidArgument query_required)
  /\ ((1 <= List.length (search_query params))%nat ->
      r = (out <- callMoltbook env net api (search_path params) GET ;;
           ret (envelope out)) w
      /\ forall cfg key,
           getCfg api = Return cfg -> getApiKey env api = Return key ->
           fetched (snd r) = request_of cfg key (search_path params) GET :: fetched w).
Proof.
  simpl. split.
  - intros ->. simpl. split; [reflexivity | apply InvalidArgument_query_required].
  - intros Hlen. destruct (search_query params) as [|c q] eqn:Hq; [simpl in Hlen; lia |].
    simpl. split; [reflexivity |].
    intros cfg key Hcfg Hkey. rewrite enveloped_call_world.
    rewrite (callMoltbook_run env net api _ GET w cfg key Hcfg Hkey). reflexivity.
Qed.

(** ** Post tool *)

(** C6, as the code has it: the post tool resolves the config first.  When
    the title is blank, or the title is not blank but content and url both
    are, [execute] makes no network call and leaves the world untouched; it
    throws the config error if the config does not resolve, and otherwise
    the invalid-argument error for the title or for content and url. *)
Theorem post_validation (api : Api) id params w :
  let r := execute (createMoltbookPostTool env net api) id params w in
  let title := trimmed_or_empty (prop params "title") in
  let content := trimmed_if_string (prop params "content") in
  let url := trimmed_if_string (prop params "url") in
  title = [] \/ (blank content = true /\ blank url = true) ->
  snd r = w
  /\ (forall e, getCfg api = Throw e -> fst r = Throw e)
  /\ (forall cfg, getCfg api = Return cfg ->
        (title = [] -> fst r = Throw title_required /\ InvalidArgument title_required)
        /\ (title <> [] -> fst r = Throw content_or_url_required
                           /\ InvalidArgument content_or_url_required)).
Proof.
  simpl. intros Hblank. unfold bind, lift.
  destruct (getCfg api) as [cfg | e] eqn:Hcfg.
  - destruct (trimmed_or_empty (prop params "title")) as [|c t] eqn:Ht; simpl.
    + split; [reflexivity |]. split; [discriminate |].
      intros _ _. split; [| congruence].
      intros _. split; [reflexivity | apply InvalidArgument_title_required].
    + destruct Hblank as [Hblank | [Hc Hu]]; [discriminate |].
      rewrite Hc, Hu. simpl.
      split; [reflexivity |]. split; [discriminate |].
      intros _ _. split; [discriminate |].
      intros _. split; [reflexivity | apply InvalidArgument_content_or_url_required].
  - simpl. split; [reflexivity |]. split; [congruence | discriminate].
Qed.

(** ** Feed tool *)

Lemma feed_qs_parts (params : gmap string value) :
  feed_qs params =
  lit "sort=" ++ form_encode (string_or (prop params "sort") (lit "new"))
    ++ lit "&limit=" ++ form_encode (Number_toString (feed_limit params)).
Proof.
  unfold feed_qs, URLSearchParams_toString. cbn [map join fst snd].
  change (form_encode (lit "sort") ++ [61]) with (lit "sort=").
  change (form_encode (lit "limit")) with (lit "limit").
  rewrite <- !app_assoc. reflexivity.
Qed.

(** The limit of the feed tool for a number other than NaN: the number
    clamped to the interval from 1 to 50. *)
Lemma feed_limit_number (params : gmap string value) (n : number) :
  prop params "limit" = VNumber n -> n <> NaN ->
  in_range 1 50 (feed_limit params) = true
  /\ (in_range 1 50 n = true -> feed_limit params = n)
  /\ (lt n (of_Z 1) = true -> feed_limit params = of_Z 1)
  /\ (lt (of_Z 50) n = true -> feed_limit params = of_Z 50).
Proof.
  intros Hp Hn. unfold feed_limit. rewrite Hp. apply clamp_limit_number, Hn.
Qed.

Lemma feed_limit_absent (params : gmap string value) :
  params !! "limit" = None -> feed_limit params = of_Z 10.
Proof. intros H. unfold feed_limit, prop. rewrite H. reflexivity. Qed.

Lemma feed_limit_explicit (params : gmap string value) (n : number) :
  prop params "limit" = VNumber n -> n <> NaN ->
  feed_limit params
  = if lt n (of_Z 1) then of_Z 1 else if lt (of_Z 50) n then of_Z 50 else n.
Proof.
  intros Hp Hn. destruct (feed_limit_number params n Hp Hn) as (_ & Hin & Hlo & Hhi).
  destruct (lt n (of_Z 1)) eqn:H1; [apply Hlo; reflexivity |].
  destruct (lt (of_Z 50) n) eqn:H50; [apply Hhi; reflexivity |].
  apply Hin. unfold in_range.
  rewrite (lt_false_le n (of_Z 1) Hn ltac:(vm_compute; discriminate) H1).
  rewrite (lt_false_le (of_Z 50) n ltac:(vm_compute; discriminate) Hn H50).
  reflexivity.
Qed.

(** The path of the feed tool, by the value of [personalized] and of the
    trimmed [submolt]. *)
Lemma feed_path_cases (params : gmap string value) :
  let sort := match prop params "sort" with VString s => s | _ => lit "new" end in
  let qs := lit "sort=" ++ form_encode sort
              ++ lit "&limit=" ++ form_encode (Number_toString (feed_limit params)) in
  let submolt := match prop params "submolt" with VString s => trim s | _ => [] end in
  (prop params "personalized" <> VBool false ->
   feed_path params = Return (lit "/feed?" ++ qs))
  /\ (prop params "personalized" = VBool false -> submolt = [] ->
      feed_path params = Return (lit "/posts?" ++ qs))
  /\ (prop params "personalized" = VBool false -> submolt <> [] ->
      forall encoded, encodeURIComponent submolt = Some encoded ->
      feed_path params = Return (lit "/posts?" ++ qs ++ lit "&submolt=" ++ encoded))
  /\ (prop params "personalized" = VBool false -> submolt <> [] ->
      encodeURIComponent submolt = None -> feed_path params = Throw URIError).
Proof.
  cbn zeta. unfold feed_path. rewrite feed_qs_parts.
  repeat apply conj.
  - intros Hp. assert (H : feed_personalized params = true).
    { unfold feed_personalized. destruct (prop params "personalized") as [| | [] | | | |];
        try reflexivity. exfalso. apply Hp. reflexivity. }
    rewrite H. reflexivity.
  - intros Hp Hs. change (trimmed_or_empty (prop params "submolt") = []) in Hs.
    unfold feed_personalized. rewrite Hp, Hs. reflexivity.
  - intros Hp Hs encoded Henc.
    change (trimmed_or_empty (prop params "submolt") <> []) in Hs.
    change (encodeURIComponent (trimmed_or_empty (prop params "submolt")) = Some encoded)
      in Henc.
    unfold feed_personalized. rewrite Hp.
    apply truthy_str_true in Hs. rewrite Hs, Henc. reflexivity.
  - intros Hp Hs Henc.
    change (trimmed_or_empty (prop params "submolt") <> []) in Hs.
    change (encodeURIComponent (trimmed_or_empty (prop params "submolt")) = None) in Henc.
    unfold feed_personalized. rewrite Hp.
    apply truthy_str_true in Hs. rewrite Hs, Henc. reflexivity.
Qed.

(** With a resolved config and key, the feed tool hands the network one
    GET request for its path under the resolved base URL. *)
Lemma feed_request_sent (api : Api) id params w cfg key path :
  getCfg api = Return cfg -> getApiKey env api = Return key ->
  feed_path params = Return path ->
  fetched (snd (execute (createMoltbookFeedTool env net api) id params w))
  = {| url := resolved_apiBase cfg ++ path;
       method := Some (lit "GET");
       headers := [(lit "Authorization", lit "Bearer " ++ key);
                   (lit "Content-Type", lit "application/json")];
       body := None |} :: fetched w.
Proof.
  intros Hcfg Hkey Hpath. cbn [execute createMoltbookFeedTool].
  unfold bind at 1, lift. rewrite Hpath. rewrite enveloped_call_world.
  rewrite (callMoltbook_run env net api _ GET w cfg key Hcfg Hkey). reflexivity.
Qed.

(** C8, as the code has it: with [personalized] anything but [false] (true
    or left out) the feed tool sends one GET request to the personalized
    feed path with the [sort] and [limit] query parameters, whatever
    [submolt] is; with [personalized] false it sends the request to the
    general posts path, followed by the encoded [submolt] parameter exactly
    when [submolt] is a string that is not blank after trimming.  A
    [submolt] that is not blank but cannot be encoded (it holds a lone
    surrogate) makes [execute] throw before any request is made. *)
Theorem feed_routing (api : Api) id params w cfg key :
  getCfg api = Return cfg -> getApiKey env api = Return key ->
  let sort := match prop params "sort" with VString s => s | _ => lit "new" end in
  let limit := match prop params "limit" with
               | VNumber n => Math_max (of_Z 1) (Math_min (of_Z 50) n)
               | _ => of_Z 10
               end in
  let qs := lit "sort=" ++ form_encode sort
              ++ lit "&limit=" ++ form_encode (Number_toString limit) in
  let submolt := match prop params "submolt" with VString s => trim s | _ => [] end in
  let sent path :=
    fetched (snd (execute (createMoltbookFeedTool env net api) id params w))
    = {| url := resolved_apiBase cfg ++ path;
         method := Some (lit "GET");
         headers := [(lit "Authorization", lit "Bearer " ++ key);
                     (lit "Content-Type", lit "application/json")];
         body := None |} :: fetched w in
  (prop params "personalized" <> VBool false -> sent (lit "/feed?" ++ qs))
  /\ (prop params "personalized" = VBool false -> submolt = [] ->
      sent (lit "/posts?" ++ qs))
  /\ (prop params "personalized" = VBool false -> submolt <> [] ->
      forall encoded, encodeURIComponent submolt = Some encoded ->
      sent (lit "/posts?" ++ qs ++ lit "&submolt=" ++ encoded))
  /\ (prop params "personalized" = VBool false -> submolt <> [] ->
      encodeURIComponent submolt = None ->
      execute (createMoltbookFeedTool env net api) id params w = (Throw URIError, w)).
Proof.
  intros Hcfg Hkey. cbn zeta.
  change (match prop params "limit" with
          | VNumber n => Math_max (of_Z 1) (Math_min (of_Z 50) n)
          | _ => of_Z 10
          end) with (feed_limit params).
  destruct (feed_path_cases params) as (Hfeed & Hposts & Hsub & Hthrow).
  repeat apply conj.
  - intros Hp. apply (feed_request_sent api id params w cfg key _ Hcfg Hkey (Hfeed Hp)).
  - intros Hp Hs.
    apply (feed_request_sent api id params w cfg key _ Hcfg Hkey (Hposts Hp Hs)).
  - intros Hp Hs encoded Henc.
    apply (feed_request_sent api id params w cfg key _ Hcfg Hkey (Hsub Hp Hs encoded Henc)).
  - intros Hp Hs Henc. cbn [execute createMoltbookFeedTool].
    unfold bind, lift. rewrite (Hthrow Hp Hs Henc). reflexivity.
Qed.

(** C7: for every limit that is a number (NaN is not a value JSON
    arguments or the schema's number type can carry), the limit in the
    query of the request the feed tool sends is the input clamped to the
    interval from 1 to 50: 1 below it, 50 above it, the input inside it.
    No limit makes the tool fail: the request is sent all the same.  A
    limit that is absent, or not a number, gives 10. *)
Theorem feed_limit_outgoing (api : Api) id params w cfg key :
  getCfg api = Return cfg -> getApiKey env api = Return key ->
  (forall n, prop params "limit" = VNumber n -> n <> NaN) ->
  let limit := match prop params "limit" with
               | VNumber n => if lt n (of_Z 1) then of_Z 1
                              else if lt (of_Z 50) n then of_Z 50 else n
               | _ => of_Z 10
               end in
  let sort := match prop params "sort" with VString s => s | _ => lit "new" end in
  let qs := lit "sort=" ++ form_encode sort
              ++ lit "&limit=" ++ form_encode (Number_toString limit) in
  let submolt := match prop params "submolt" with VString s => trim s | _ => [] end in
  let sent path :=
    fetched (snd (execute (createMoltbookFeedTool env net api) id params w))
    = {| url := resolved_apiBase cfg ++ path;
         method := Some (lit "GET");
         headers := [(lit "Authorization", lit "Bearer " ++ key);
                     (lit "Content-Type", lit "application/json")];
         body := None |} :: fetched w in
  in_range 1 50 limit = true
  /\ (prop params "personalized" <> VBool false -> sent (lit "/feed?" ++ qs))
  /\ (prop params "personalized" = VBool false -> submolt = [] ->
      sent (lit "/posts?" ++ qs))
  /\ (prop params "personalized" = VBool false -> submolt <> [] ->
      forall encoded, encodeURIComponent submolt = Some encoded ->
      sent (lit "/posts?" ++ qs ++ lit "&submolt=" ++ encoded)).
Proof.
  intros Hcfg Hkey Hnum. cbn zeta.
  assert (Hlimit : match prop params "limit" with
                   | VNumber n => if lt n (of_Z 1) then of_Z 1
                                  else if lt (of_Z 50) n then of_Z 50 else n
                   | _ => of_Z 10
                   end = feed_limit params).
  { destruct (prop params "limit") as [| | | n | | |] eqn:Hp;
      try (unfold feed_limit; rewrite Hp; reflexivity).
    symmetry. apply (feed_limit_explicit params n Hp (Hnum n eq_refl)). }
  rewrite Hlimit.
  destruct (feed_path_cases params) as (Hfeed & Hposts & Hsub & _).
  repeat apply conj.
  - destruct (prop params "limit") as [| | | n | | |] eqn:Hp;
      [| | | apply (feed_limit_number params n Hp (Hnum n eq_refl)) | | |];
      unfold feed_limit; rewrite Hp; reflexivity.
  - intros Hp. apply (feed_request_sent api id params w cfg key _ Hcfg Hkey (Hfeed Hp)).
  - intros Hp Hs.
    apply (feed_request_sent api id params w cfg key _ Hcfg Hkey (Hposts Hp Hs)).
  - intros Hp Hs encoded Henc.
    apply (feed_request_sent api id params w cfg key _ Hcfg Hkey (Hsub Hp Hs encoded Henc)).
Qed.

End ToolProperties.

Lemma search_query_guard_witness :
  execute (createMoltbookSearchTool env_none (fixed_net Failed) api_ok) [] ∅ initial_world
  = (Throw query_required, initial_world)
  /\ fetched (snd (execute (createMoltbookSearchTool env_none (fixed_net Failed) api_ok)
                     [] params_one_letter initial_world))
     = [request_of {| resolved_apiBase := SAFE_BASE; resolved_cfg := cfg_of api_ok |}
          (lit "secret") (search_path params_one_letter) GET].
Proof.
  split.
  - apply (proj1 (search_query_guard env_none (fixed_net Failed) api_ok [] ∅ initial_world)).
    reflexivity.
  - apply (proj2 (search_query_guard env_none (fixed_net Failed) api_ok []
                    params_one_letter initial_world)).
    + vm_compute. lia.
    + exact api_ok_cfg.
    + exact api_ok_key.
Defined.

(** C1 fails as stated: the query [a], and the query [ a ] that also meets
    the schema's minimum length, trim to one character, and [execute] sends
    the search request and returns the wrapped reply; no invalid-argument
    error is thrown. *)
Lemma search_one_letter_query_reaches_network :
  let run params :=
    execute (createMoltbookSearchTool env_none (fixed_net (Responded empty_list)) api_ok)
      [] params initial_world in
  let sent := [lit "https://www.moltbook.com/api/v1/search?q=a&type=all&limit=20"] in
  List.length (search_query params_one_letter) = 1%nat
  /\ List.length (search_query params_padded_letter) = 1%nat
  /\ fst (run params_one_letter) = Return (envelope (VArray []))
  /\ fst (run params_padded_letter) = Return (envelope (VArray []))
  /\ map url (fetched (snd (run params_one_letter))) = sent
  /\ map url (fetched (snd (run params_padded_letter))) = sent
  /\ ~ (exists e, fst (run params_one_letter) = Throw e /\ InvalidArgument e).
Proof.
  repeat apply conj; try (vm_compute; reflexivity).
  intros (e & He & _). vm_compute in He. discriminate.
Qed.

Lemma post_validation_witness :
  execute (createMoltbookPostTool env_none (fixed_net Failed) api_ok) []
    params_blank_title initial_world
  = (Throw title_required, initial_world)
  /\ execute (createMoltbookPostTool env_none (fixed_net Failed) api_ok) []
       params_title_only initial_world
     = (Throw content_or_url_required, initial_world).
Proof.
  split.
  - destruct (post_validation env_none (fixed_net Failed) api_ok [] params_blank_title
                initial_world (or_introl eq_refl)) as (Hw & _ & Hcfg).
    destruct (Hcfg _ api_ok_cfg) as [Htitle _].
    apply injective_projections; [apply Htitle; reflexivity | exact Hw].
  - destruct (post_validation env_none (fixed_net Failed) api_ok [] params_title_only
                initial_world (or_intror (conj eq_refl eq_refl))) as (Hw & _ & Hcfg).
    destruct (Hcfg _ api_ok_cfg) as [_ Hboth].
    apply injective_projections; [apply Hboth; vm_compute; discriminate | exact Hw].
Defined.

(** C6 fails as stated: with a base URL that fails the allow-list check, a
    blank title makes [execute] throw the unsafe-endpoint error, which is
    not an invalid-argument error. *)
Lemma post_blank_title_unsafe_endpoint :
  let r := execute (createMoltbookPostTool env_none (fixed_net Failed) api_unsafe) []
             params_blank_title initial_world in
  trimmed_or_empty (prop params_blank_title "title") = []
  /\ fst r = Throw unsafe_apiBase_error
  /\ ~ InvalidArgument unsafe_apiBase_error.
Proof.
  split; [vm_compute; reflexivity |]. split; [vm_compute; reflexivity |].
  unfold InvalidArgument. vm_compute. intros [H | [H | H]]; discriminate.
Qed.

(** The limit NaN, which no JSON text denotes: [Math.max] and [Math.min]
    hand it on, and the query would carry [limit=NaN]. *)
Lemma feed_limit_nan_not_clamped :
  prop params_nan_limit "limit" = VNumber NaN
  /\ feed_limit params_nan_limit = NaN
  /\ in_range 1 50 (feed_limit params_nan_limit) = false
  /\ feed_path params_nan_limit = Return (lit "/feed?sort=new&limit=NaN").
Proof. repeat apply conj; vm_compute; reflexivity. Qed.

(** The limits 500 and 0 of the specification's examples. *)
Example feed_limit_500 :
  feed_path {["limit" := VNumber (of_Z 500)]} = Return (lit "/feed?sort=new&limit=50").
Proof. vm_compute. reflexivity. Qed.

Example feed_limit_0 :
  feed_path {["limit" := VNumber (of_Z 0)]} = Return (lit "/feed?sort=new&limit=1").
Proof. vm_compute. reflexivity. Qed.

Example feed_limit_default : feed_path ∅ = Return (lit "/feed?sort=new&limit=10").
Proof. vm_compute. reflexivity. Qed.

Lemma feed_routing_witness :
  map url (fetched (snd (execute (createMoltbookFeedTool env_none (fixed_net Failed) api_ok)
                           [] params_cats initial_world)))
  = [lit "https://www.moltbook.com/api/v1/posts?sort=new&limit=10&submolt=cats"]
  /\ map url (fetched (snd (execute (createMoltbookFeedTool env_none (fixed_net Failed)
                                       api_ok)
                              [] (<["personalized" := VBool true]> params_cats)
                              initial_world)))
     = [lit "https://www.moltbook.com/api/v1/feed?sort=new&limit=10"].
Proof.
  split.
  - assert (Hp : prop params_cats "personalized" = VBool false) by reflexivity.
    assert (Hs : match prop params_cats "submolt" with VString s => trim s | _ => [] end
                 <> []) by (vm_compute; discriminate).
    assert (Henc : encodeURIComponent
                     (match prop params_cats "submolt" with
                      | VString s => trim s
                      | _ => []
                      end) = Some (lit "cats")) by (vm_compute; reflexivity).
    rewrite (proj1 (proj2 (proj2 (feed_routing env_none (fixed_net Failed) api_ok []
                                    params_cats initial_world _ _ api_ok_cfg api_ok_key)))
               Hp Hs (lit "cats") Henc).
    vm_compute. reflexivity.
  - assert (Hp : prop (<["personalized" := VBool true]> params_cats) "personalized"
                 <> VBool false) by (vm_compute; discriminate).
    rewrite (proj1 (feed_routing env_none (fixed_net Failed) api_ok []
                      (<["personalized" := VBool true]> params_cats) initial_world
                      _ _ api_ok_cfg api_ok_key) Hp).
    vm_compute. reflexivity.
Defined.

(** C8 fails as stated: with [personalized] false and a [submolt] that is
    one lead surrogate, which is not blank and which the JSON text
    [{"personalized":false,"submolt":"\ud800"}] carries, [execute] throws
    the URIError of [encodeURIComponent]; no request goes to the general
    posts path or anywhere else. *)
Lemma feed_lone_surrogate_submolt_throws :
  JSON_parse (quoted "{'personalized':false,'submolt':'\ud800'}")
  = Some (VObject [(lit "personalized", VBool false); (lit "submolt", VString [55296])])
  /\ prop params_lone_surrogate "personalized" = VBool false
  /\ trim [55296] <> []
  /\ execute (createMoltbookFeedTool env_none (fixed_net (Responded empty_list)) api_ok)
       [] params_lone_surrogate initial_world
     = (Throw URIError, initial_world).
Proof.
  repeat apply conj; try (vm_compute; reflexivity). vm_compute. discriminate.
Qed.

Lemma feed_limit_outgoing_witness :
  map url (fetched (snd (execute (createMoltbookFeedTool env_none (fixed_net Failed) api_ok)
                           [] params_limit_500 initial_world)))
  = [lit "https://www.moltbook.com/api/v1/feed?sort=new&limit=50"]
  /\ map url (fetched (snd (execute (createMoltbookFeedTool env_none (fixed_net Failed)
                                       api_ok)
                              [] params_limit_0 initial_world)))
     = [lit "https://www.moltbook.com/api/v1/feed?sort=new&limit=1"]
  /\ map url (fetched (snd (execute (createMoltbookFeedTool env_none (fixed_net Failed)
                                       api_ok)
                              [] ∅ initial_world)))
     = [lit "https://www.moltbook.com/api/v1/feed?sort=new&limit=10"].
Proof.
  assert (H500 : forall n, prop params_limit_500 "limit" = VNumber n -> n <> NaN)
    by (intros n [= <-]; vm_compute; discriminate).
  assert (H0 : forall n, prop params_limit_0 "limit" = VNumber n -> n <> NaN)
    by (intros n [= <-]; vm_compute; discriminate).
  assert (Hnone : forall n, prop (∅ : gmap string value) "limit" = VNumber n -> n <> NaN)
    by (intros n H; vm_compute in H; discriminate).
  split; [| split].
  - rewrite (proj1 (proj2 (feed_limit_outgoing env_none (fixed_net Failed) api_ok []
                             params_limit_500 initial_world _ _ api_ok_cfg api_ok_key H500))
               ltac:(vm_compute; discriminate)).
    vm_compute. reflexivity.
  - rewrite (proj1 (proj2 (feed_limit_outgoing env_none (fixed_net Failed) api_ok []
                             params_limit_0 initial_world _ _ api_ok_cfg api_ok_key H0))
               ltac:(vm_compute; discriminate)).
    vm_compute. reflexivity.
  - rewrite (proj1 (proj2 (feed_limit_outgoing env_none (fixed_net Failed) api_ok []
                             ∅ initial_world _ _ api_ok_cfg api_ok_key Hnone))
               ltac:(vm_compute; discriminate)).
    vm_compute. reflexivity.
Defined.

(** * Further properties of the code *)

(** ** Trimming *)

Lemma trimStart_fixed (s : jsstring) :
  trimStart s = s <->
  match s with [] => True | c :: _ => is_white_space c = false end.
Proof.
  destruct s as [|c r]; simpl; [tauto |].
  destruct (is_white_space c) eqn:Hc; split; try congruence; try reflexivity.
  intros H. exfalso.
  assert (Hlen : (List.length (trimStart r) <= List.length r)%nat).
  { clear. induction r as [|a r IH]; simpl; [lia |].
    destruct (is_white_space a); simpl; lia. }
  rewrite H in Hlen. simpl in Hlen. lia.
Qed.

Lemma trimStart_idempotent (s : jsstring) : trimStart (trimStart s) = trimStart s.
Proof.
  induction s as [|c r IH]; simpl; [reflexivity |].
  destruct (is_white_space c) eqn:Hc; [exact IH |]. simpl. rewrite Hc. reflexivity.
Qed.

(** What [trimStart] removes is a prefix. *)
Lemma trimStart_suffix (s : jsstring) : exists p, s = p ++ trimStart s.
Proof.
  induction s as [|c r [p IH]]; simpl; [exists []; reflexivity |].
  destruct (is_white_space c).
  - exists (c :: p). simpl. rewrite <- IH. reflexivity.
  - exists []. reflexivity.
Qed.

Lemma trim_no_outer_space (s : jsstring) : no_outer_space (trim s).
Proof.
  unfold no_outer_space, trim, trimEnd. rewrite rev_involutive. split.
  - set (t := trimStart s). set (u := trimStart (rev t)).
    apply trimStart_fixed.
    destruct (rev u) as [|c r] eqn:Hu; [exact I |].
    destruct (trimStart_suffix (rev t)) as [p Hp]. fold u in Hp.
    assert (Ht : t = rev u ++ rev p).
    { rewrite <- (rev_involutive t), Hp, rev_app_distr. reflexivity. }
    rewrite Hu in Ht. simpl in Ht.
    assert (Hfix : trimStart t = t) by apply trimStart_idempotent.
    apply trimStart_fixed in Hfix. rewrite Ht in Hfix. exact Hfix.
  - apply trimStart_idempotent.
Qed.

Lemma no_outer_space_trim (s : jsstring) : no_outer_space s -> trim s = s.
Proof.
  intros [H1 H2]. unfold trim, trimEnd. rewrite H1, H2. apply rev_involutive.
Qed.

Lemma trim_idempotent (s : jsstring) : trim (trim s) = trim s.
Proof. apply no_outer_space_trim, trim_no_outer_space. Qed.

(** ** Config resolver, further *)

Lemma getCfg_Return (api : Api) (cfg : ResolvedCfg) :
  getCfg api = Return cfg ->
  cfg = {| resolved_apiBase := apiBase_of api; resolved_cfg := cfg_of api |}
  /\ startsWith (apiBase_of api) SAFE_BASE = true.
Proof.
  intros H. destruct (getCfg_cases api) as [[Hs H'] | [_ H']]; rewrite H' in H.
  - injection H as <-. split; [reflexivity | exact Hs].
  - discriminate.
Qed.

(** The base URL [getCfg] returns neither starts nor ends with white
    space, and a config that carries it as its base URL resolves to the
    same base URL again. *)
Theorem getCfg_resolved_is_stable (api : Api) (cfg : ResolvedCfg) :
  getCfg api = Return cfg ->
  no_outer_space (resolved_apiBase cfg)
  /\ getCfg {| pluginConfig :=
                 Some (with_apiBase (resolved_cfg cfg) (resolved_apiBase cfg)) |}
     = Return {| resolved_apiBase := resolved_apiBase cfg;
                 resolved_cfg := with_apiBase (resolved_cfg cfg) (resolved_apiBase cfg) |}.
Proof.
  intros H. destruct (getCfg_Return api cfg H) as [-> Hs]. simpl.
  split; [apply trim_no_outer_space |].
  set (api' := {| pluginConfig := Some (with_apiBase (cfg_of api) (apiBase_of api)) |}).
  assert (Hbase : apiBase_of api' = apiBase_of api).
  { unfold apiBase_of at 1. simpl.
    assert (Hne : truthy_str (apiBase_of api) = true).
    { destruct (apiBase_of api); [vm_compute in Hs; discriminate | reflexivity]. }
    rewrite Hne. apply trim_idempotent. }
  unfold getCfg. rewrite Hbase, Hs. reflexivity.
Qed.

Lemma getCfg_resolved_is_stable_witness :
  getCfg {| pluginConfig :=
              Some (with_apiBase
                      (cfg_of (api_with_base (Some (lit " https://www.moltbook.com/api/v1/x ")) None))
                      (lit "https://www.moltbook.com/api/v1/x")) |}
  = Return {| resolved_apiBase := lit "https://www.moltbook.com/api/v1/x";
              resolved_cfg :=
                with_apiBase
                  (cfg_of (api_with_base (Some (lit " https://www.moltbook.com/api/v1/x ")) None))
                  (lit "https://www.moltbook.com/api/v1/x") |}.
Proof.
  apply (proj2 (getCfg_resolved_is_stable
                  (api_with_base (Some (lit " https://www.moltbook.com/api/v1/x ")) None)
                  {| resolved_apiBase := lit "https://www.moltbook.com/api/v1/x";
                     resolved_cfg :=
                       cfg_of (api_with_base
                                 (Some (lit " https://www.moltbook.com/api/v1/x ")) None) |}
                  eq_refl)).
Defined.

(** ** Credential *)

Lemma getApiKey_unfold (env : ProcessEnv) (api : Api) (cfg : ResolvedCfg) :
  getCfg api = Return cfg ->
  getApiKey env api =
  if truthy_str (trim (selected_key env api)) then Return (trim (selected_key env api))
  else Throw missing_key_error.
Proof.
  intros H. destruct (getCfg_Return api cfg H) as [-> _].
  unfold getApiKey. rewrite H. simpl. unfold selected_key.
  destruct (truthy_str _); reflexivity.
Qed.

(** With a config that resolves, [getApiKey] throws the missing-key error
    exactly when the selected key is blank after trimming.  That is so
    when the configured key and the environment variable are both absent
    or empty, and also when the configured key is not empty but blank: the
    environment variable is then not consulted. *)
Theorem getApiKey_missing_credential (env : ProcessEnv) (api : Api) (cfg : ResolvedCfg) :
  getCfg api = Return cfg ->
  (getApiKey env api = Throw missing_key_error <-> trim (selected_key env api) = [])
  /\ (apiKey (cfg_of api) = None \/ apiKey (cfg_of api) = Some [] ->
      MOLTBOOK_API_KEY env = None \/ MOLTBOOK_API_KEY env = Some [] ->
      getApiKey env api = Throw missing_key_error)
  /\ (forall k, apiKey (cfg_of api) = Some k -> k <> [] -> trim k = [] ->
      getApiKey env api = Throw missing_key_error).
Proof.
  intros H. rewrite (getApiKey_unfold env api cfg H). split; [| split].
  - destruct (truthy_str (trim (selected_key env api))) eqn:Ht.
    + apply truthy_str_true in Ht. split; [discriminate | contradiction].
    + apply truthy_str_false in Ht. split; [intros _; exact Ht | reflexivity].
  - unfold selected_key. intros [-> | ->] [-> | ->]; reflexivity.
  - intros k Hk Hne Hblank. apply truthy_str_true in Hne.
    unfold selected_key, or_opt, or_str. rewrite Hk, !Hne, Hblank. reflexivity.
Qed.

Lemma getApiKey_missing_credential_witness :
  getApiKey env_none api_no_key = Throw missing_key_error
  /\ getApiKey env_key api_blank_key = Throw missing_key_error.
Proof.
  split.
  - apply (proj1 (proj2 (getApiKey_missing_credential env_none api_no_key _ eq_refl)));
      left; reflexivity.
  - apply (proj2 (proj2 (getApiKey_missing_credential env_key api_blank_key _ eq_refl))
             (lit "  ")); [reflexivity | discriminate | reflexivity].
Defined.

(** The key [getApiKey] returns is not empty and neither starts nor ends
    with white space.  It is the trimmed configured key when that one is
    not empty, whatever the environment holds, and the trimmed environment
    variable when the configured key is absent or empty. *)
Theorem getApiKey_returns_trimmed_key (env : ProcessEnv) (api : Api) (key : jsstring) :
  getApiKey env api = Return key ->
  key <> []
  /\ no_outer_space key
  /\ (forall k, apiKey (cfg_of api) = Some k -> k <> [] -> key = trim k)
  /\ (apiKey (cfg_of api) = None \/ apiKey (cfg_of api) = Some [] ->
      exists k, MOLTBOOK_API_KEY env = Some k /\ key = trim k).
Proof.
  intros H. destruct (getCfg api) as [cfg | e] eqn:Hcfg.
  2:{ rewrite (getApiKey_config_error env api e Hcfg) in H. discriminate. }
  rewrite (getApiKey_unfold env api cfg Hcfg) in H.
  destruct (truthy_str (trim (selected_key env api))) eqn:Ht; [| discriminate].
  injection H as <-. apply truthy_str_true in Ht.
  split; [exact Ht |]. split; [apply trim_no_outer_space |]. split.
  - intros k Hk Hne. apply truthy_str_true in Hne.
    unfold selected_key, or_opt, or_str. rewrite Hk, !Hne. reflexivity.
  - unfold selected_key in *.
    intros [Hk | Hk]; rewrite Hk in *; simpl in *;
      destruct (MOLTBOOK_API_KEY env) as [k |]; simpl in *;
      try (exfalso; apply Ht; reflexivity);
      exists k; (split; [reflexivity |]);
      destruct (truthy_str k) eqn:Hk'; try reflexivity;
      apply truthy_str_false in Hk'; subst k; reflexivity.
Qed.

Lemma getApiKey_returns_trimmed_key_witness :
  lit "from-env" <> []
  /\ no_outer_space (lit "from-env")
  /\ exists k, MOLTBOOK_API_KEY env_key = Some k /\ lit "from-env" = trim k.
Proof.
  destruct (getApiKey_returns_trimmed_key env_key api_no_key (lit "from-env") eq_refl)
    as (Hne & Hclean & _ & Henv).
  split; [exact Hne |]. split; [exact Hclean |].
  apply Henv. left. reflexivity.
Defined.

(** ** HTTP bridge, further *)

Lemma lt_zero_truthy (t : number) : lt (of_Z 0) t = true -> truthy_num t = true.
Proof. destruct t as [[] | [] | | [] m e]; vm_compute; congruence. Qed.

(** The delay of the cancellation timer is always greater than zero: it is
    the configured timeout when that is a number above zero, and 15000
    when the timeout is missing, zero, negative or NaN. *)
Theorem timeout_is_positive (cfg : ResolvedCfg) :
  lt (of_Z 0) (timeout_of cfg) = true
  /\ (forall t, requestTimeoutMs (resolved_cfg cfg) = Some t ->
                lt (of_Z 0) t = true -> timeout_of cfg = t)
  /\ (forall t, requestTimeoutMs (resolved_cfg cfg) = Some t ->
                lt (of_Z 0) t = false -> timeout_of cfg = of_Z 15000)
  /\ (requestTimeoutMs (resolved_cfg cfg) = None -> timeout_of cfg = of_Z 15000).
Proof.
  unfold timeout_of. destruct (requestTimeoutMs (resolved_cfg cfg)) as [t |].
  - destruct (lt (of_Z 0) t) eqn:Hlt.
    + rewrite (lt_zero_truthy t Hlt). cbn [andb]. repeat apply conj.
      * exact Hlt.
      * intros t' [= <-] _. reflexivity.
      * intros t' [= <-] H. congruence.
      * discriminate.
    + rewrite andb_false_r. repeat apply conj.
      * vm_compute. reflexivity.
      * intros t' [= <-] H. congruence.
      * intros t' [= <-] _. reflexivity.
      * discriminate.
  - repeat apply conj; try discriminate; reflexivity.
Qed.

Lemma timeout_is_positive_witness :
  timeout_of {| resolved_apiBase := SAFE_BASE; resolved_cfg := cfg_of api_timeout |}
  = of_Z 2500
  /\ timeout_of {| resolved_apiBase := SAFE_BASE; resolved_cfg := cfg_of api_ok |}
     = of_Z 15000.
Proof.
  split.
  - apply (proj1 (proj2 (timeout_is_positive
                    {| resolved_apiBase := SAFE_BASE; resolved_cfg := cfg_of api_timeout |}))
             (of_Z 2500)); [reflexivity | vm_compute; reflexivity].
  - apply (proj2 (proj2 (proj2 (timeout_is_positive
                    {| resolved_apiBase := SAFE_BASE; resolved_cfg := cfg_of api_ok |})))).
    reflexivity.
Defined.

Section BridgeFurther.

Variable env : ProcessEnv.
Variable net : list Request -> Request -> Outcome.

Lemma getCfg_Throw (api : Api) (e : exn) : getCfg api = Throw e -> UnsafeEndpoint e.
Proof.
  intros H. destruct (getCfg_cases api) as [[_ H'] | [_ H']]; rewrite H' in H.
  - discriminate.
  - injection H as <-. reflexivity.
Qed.

Lemma getApiKey_Throw (api : Api) (cfg : ResolvedCfg) (e : exn) :
  getCfg api = Return cfg -> getApiKey env api = Throw e -> MissingCredential e.
Proof.
  intros Hcfg H. rewrite (getApiKey_unfold env api cfg Hcfg) in H.
  destruct (truthy_str _); [discriminate |]. injection H as <-. reflexivity.
Qed.

Lemma resolved_base_trusted (api : Api) (cfg : ResolvedCfg) (path : jsstring) :
  getCfg api = Return cfg -> has_trusted_prefix (resolved_apiBase cfg ++ path).
Proof.
  intros H. destruct (getCfg_Return api cfg H) as [-> Hs]. simpl.
  apply has_trusted_prefix_startsWith in Hs. destruct Hs as [suffix ->].
  exists (suffix ++ path). rewrite <- app_assoc. reflexivity.
Qed.

(** A bridged call does one of two things.  Either config or key
    resolution fails: the call throws the unsafe-endpoint or the
    missing-key error and the world is untouched (no timer, no request).
    Or it hands exactly one request to the network, whatever the outcome
    (there is no retry), and the URL of that request is the resolved base
    URL followed by the path, so it starts with the trusted prefix. *)
Theorem callMoltbook_one_request_or_none (api : Api) path init w :
  let r := callMoltbook env net api path init w in
  (exists e, r = (Throw e, w) /\ (UnsafeEndpoint e \/ MissingCredential e))
  \/ (exists cfg key,
        getCfg api = Return cfg /\ getApiKey env api = Return key
        /\ fetched (snd r) = request_of cfg key path init :: fetched w
        /\ url (request_of cfg key path init) = resolved_apiBase cfg ++ path
        /\ has_trusted_prefix (url (request_of cfg key path init))).
Proof.
  simpl. destruct (getCfg api) as [cfg | e] eqn:Hcfg.
  - destruct (getApiKey env api) as [key | e] eqn:Hkey.
    + right. exists cfg, key. split; [reflexivity |]. split; [reflexivity |].
      rewrite (callMoltbook_run env net api path init w cfg key Hcfg Hkey). simpl.
      split; [reflexivity |]. split; [reflexivity |].
      apply (resolved_base_trusted api cfg path Hcfg).
    + left. exists e. split.
      * apply (callMoltbook_key_error env net api path init w cfg e Hcfg Hkey).
      * right. apply (getApiKey_Throw api cfg e Hcfg Hkey).
  - left. exists e. split.
    + apply (callMoltbook_config_error env net api path init w e Hcfg).
    + left. apply (getCfg_Throw api e Hcfg).
Qed.

(** A response with a success status never makes the bridged call throw:
    the call returns the parsed body, which is the value [JSON.parse]
    gives when the body is not empty and is valid JSON. *)
Theorem success_status_returns (api : Api) path init w cfg key res :
  getCfg api = Return cfg -> getApiKey env api = Return key ->
  net (fetched w) (request_of cfg key path init) = Responded res ->
  ok res = true ->
  fst (callMoltbook env net api path init w) = Return (parsed_body (text res))
  /\ (forall v, text res <> [] -> JSON_parse (text res) = Some v ->
                fst (callMoltbook env net api path init w) = Return v).
Proof.
  intros Hcfg Hkey Hnet Hok.
  rewrite (callMoltbook_run env net api path init w cfg key Hcfg Hkey), Hnet.
  unfold reply. rewrite Hok. simpl. split; [reflexivity |].
  intros v Hne Hparse. unfold parsed_body. apply truthy_str_true in Hne.
  rewrite Hne, Hparse. reflexivity.
Qed.

(** A timeout and a network failure surface as the exception of the
    rejected request, which is not an upstream error; the one request has
    been sent and is not sent again. *)
Theorem timeout_is_not_upstream_error (api : Api) path init w cfg key :
  getCfg api = Return cfg -> getApiKey env api = Return key ->
  (net (fetched w) (request_of cfg key path init) = TimedOut ->
   fst (callMoltbook env net api path init w) = Throw AbortError)
  /\ (net (fetched w) (request_of cfg key path init) = Failed ->
      fst (callMoltbook env net api path init w) = Throw FetchFailed)
  /\ ~ UpstreamError AbortError
  /\ ~ UpstreamError FetchFailed
  /\ fetched (snd (callMoltbook env net api path init w))
     = request_of cfg key path init :: fetched w.
Proof.
  intros Hcfg Hkey.
  rewrite (callMoltbook_run env net api path init w cfg key Hcfg Hkey). simpl.
  split; [intros ->; reflexivity |]. split; [intros ->; reflexivity |].
  split; [intros (c & d & h & H); discriminate |].
  split; [intros (c & d & h & H); discriminate | reflexivity].
Qed.

(** The detail of an upstream error when the body carries no JSON: an
    empty body gives the detail [null], and a body that is not valid JSON
    gives the serialized object [{ raw: <body text> }], the whole text
    quoted as a JSON string. *)
Theorem upstream_error_without_json (api : Api) path init w cfg key res :
  getCfg api = Return cfg -> getApiKey env api = Return key ->
  net (fetched w) (request_of cfg key path init) = Responded res ->
  ok res = false ->
  let hint := retry_hint (Headers_get (res_headers res) (lit "retry-after")) in
  (text res = [] ->
   fst (callMoltbook env net api path init w)
   = Throw (Error (lit "MoltBook API " ++ decimal (status res) ++ lit ": "
                     ++ lit "null" ++ hint)))
  /\ (text res <> [] -> JSON_parse (text res) = None ->
      fst (callMoltbook env net api path init w)
      = Throw (Error (lit "MoltBook API " ++ decimal (status res) ++ lit ": "
                        ++ (quoted "{'raw':" ++ quote (text res) ++ lit "}") ++ hint))).
Proof.
  intros Hcfg Hkey Hnet Hok hint.
  rewrite (callMoltbook_run env net api path init w cfg key Hcfg Hkey), Hnet.
  unfold reply. rewrite Hok. unfold fst, upstream_error. fold hint. split.
  - intros ->. reflexivity.
  - intros Hne Hparse. unfold parsed_body. apply truthy_str_true in Hne.
    rewrite Hne, Hparse. do 4 f_equal.
Qed.

End BridgeFurther.

Lemma success_status_returns_witness :
  fst (callMoltbook env_none (fixed_net (Responded empty_list)) api_ok
         (lit "/feed") GET initial_world) = Return (VArray []).
Proof.
  apply (proj2 (success_status_returns env_none (fixed_net (Responded empty_list)) api_ok
                  (lit "/feed") GET initial_world _ _ empty_list
                  api_ok_cfg api_ok_key eq_refl eq_refl)).
  - vm_compute. discriminate.
  - vm_compute. reflexivity.
Defined.

Lemma timeout_is_not_upstream_error_witness :
  fst (callMoltbook env_none (fixed_net TimedOut) api_ok (lit "/feed") GET initial_world)
  = Throw AbortError.
Proof.
  apply (proj1 (timeout_is_not_upstream_error env_none (fixed_net TimedOut) api_ok
                  (lit "/feed") GET initial_world _ _ api_ok_cfg api_ok_key)).
  reflexivity.
Defined.

Lemma upstream_error_without_json_witness :
  fst (callMoltbook env_none (fixed_net (Responded bad_gateway)) api_ok
         (lit "/feed") GET initial_world)
  = Throw (Error (quoted "MoltBook API 502: {'raw':'<html>Bad Gateway</html>'}")).
Proof.
  rewrite (proj2 (upstream_error_without_json env_none (fixed_net (Responded bad_gateway))
                    api_ok (lit "/feed") GET initial_world _ _ bad_gateway
                    api_ok_cfg api_ok_key eq_refl eq_refl)).
  - vm_compute. reflexivity.
  - vm_compute. discriminate.
  - vm_compute. reflexivity.
Defined.

(** ** Request headers *)

Lemma str_eqb_eq (a b : jsstring) : str_eqb a b = true <-> a = b.
Proof. unfold str_eqb. apply bool_decide_eq_true. Qed.

Lemma str_eqb_neq (a b : jsstring) : str_eqb a b = false <-> a <> b.
Proof. unfold str_eqb. apply bool_decide_eq_false. Qed.

Section FieldLookup.
Context {A : Type}.
Implicit Types (f : list (jsstring * A)) (k : jsstring) (v : A).

Lemma find_replace_field f k v f' k' :
  replace_field f k v = Some f' ->
  find_field f' k' = if str_eqb k k' then Some v else find_field f k'.
Proof.
  revert f'. induction f as [|[k1 v1] r IH]; intros f'; simpl; [discriminate |].
  destruct (str_eqb k1 k) eqn:H1.
  - intros [= <-]. simpl. apply str_eqb_eq in H1. subst k1.
    destruct (str_eqb k k'); reflexivity.
  - destruct (replace_field r k v) as [r' |] eqn:Hr; [| discriminate].
    intros [= <-]. simpl. rewrite (IH r' eq_refl).
    destruct (str_eqb k1 k') eqn:H2; [| reflexivity].
    apply str_eqb_eq in H2. subst k'. apply str_eqb_neq in H1.
    assert (H3 : str_eqb k k1 = false) by (apply str_eqb_neq; congruence).
    rewrite H3. reflexivity.
Qed.

Lemma replace_field_None f k v : replace_field f k v = None -> find_field f k = None.
Proof.
  induction f as [|[k1 v1] r IH]; simpl; [reflexivity |].
  destruct (str_eqb k1 k); [discriminate |].
  destruct (replace_field r k v); [discriminate | auto].
Qed.

Lemma find_insert_index f i k v k' :
  find_field f k = None ->
  find_field (insert_index f i k v) k' = if str_eqb k k' then Some v else find_field f k'.
Proof.
  induction f as [|[k1 v1] r IH]; simpl; [reflexivity |].
  destruct (str_eqb k1 k) eqn:H1; [discriminate |]. intros Hr.
  assert (Hhead : find_field ((k, v) :: (k1, v1) :: r) k'
                  = if str_eqb k k' then Some v else find_field ((k1, v1) :: r) k')
    by reflexivity.
  destruct (array_index k1) as [j |]; [| exact Hhead].
  destruct (j <? i); [| exact Hhead].
  simpl. rewrite (IH Hr).
  destruct (str_eqb k1 k') eqn:H2; [| reflexivity].
  apply str_eqb_eq in H2. subst k'.
  assert (H3 : str_eqb k k1 = false).
  { apply str_eqb_neq. apply str_eqb_neq in H1. congruence. }
  rewrite H3. reflexivity.
Qed.

Lemma find_field_app f k v k' :
  find_field (f ++ [(k, v)]) k' =
  match find_field f k' with
  | Some x => Some x
  | None => if str_eqb k k' then Some v else None
  end.
Proof.
  induction f as [|[k1 v1] r IH]; simpl; [reflexivity |].
  destruct (str_eqb k1 k'); [reflexivity | exact IH].
Qed.

(** Reading a property after setting one. *)
Lemma find_set_field f k v k' :
  find_field (set_field f k v) k' = if str_eqb k k' then Some v else find_field f k'.
Proof.
  unfold set_field. destruct (replace_field f k v) as [f' |] eqn:Hr.
  - apply (find_replace_field f k v f' k' Hr).
  - apply replace_field_None in Hr.
    destruct (array_index k) as [i |]; [apply find_insert_index, Hr |].
    rewrite find_field_app. destruct (str_eqb k k') eqn:Hk.
    + apply str_eqb_eq in Hk. subst k'. rewrite Hr. reflexivity.
    + destruct (find_field f k'); reflexivity.
Qed.

(** Reading a property of [{ ...a, ...b }]: the last entry of [b] with
    that name, else the entry of [a]. *)
Lemma find_spread (a b : list (jsstring * A)) k :
  find_field (spread a b) k =
  match find_field (rev b) k with
  | Some v => Some v
  | None => find_field a k
  end.
Proof.
  unfold spread. revert a. induction b as [|[k1 v1] b IH]; intros a; simpl;
    [reflexivity |].
  rewrite IH, find_field_app, find_set_field.
  destruct (find_field (rev b) k); [reflexivity |].
  destruct (str_eqb k1 k); reflexivity.
Qed.

End FieldLookup.

(** The headers of the request a bridged call sends.  Without headers of
    the caller they are the bearer credential and the JSON content type.
    A header the caller passes in [init.headers] takes the place of the
    default of the same name (the credential included), and a default
    whose name the caller does not use is kept. *)
Theorem request_headers_merge (cfg : ResolvedCfg) (key path : jsstring) (init : RequestInit)
    (k : jsstring) :
  let defaults := [(lit "Authorization", lit "Bearer " ++ key);
                   (lit "Content-Type", lit "application/json")] in
  let req := request_of cfg key path init in
  (init_headers init = None -> headers req = defaults)
  /\ (forall h v, init_headers init = Some h -> find_field (rev h) k = Some v ->
                  find_field (headers req) k = Some v)
  /\ (forall h, init_headers init = Some h -> find_field (rev h) k = None ->
                find_field (headers req) k = find_field defaults k).
Proof.
  simpl. split; [| split].
  - intros ->. reflexivity.
  - intros h v -> Hv. rewrite find_spread, Hv. reflexivity.
  - intros h -> Hv. rewrite find_spread, Hv. reflexivity.
Qed.

Lemma request_headers_merge_witness :
  find_field (headers (request_of
                         {| resolved_apiBase := SAFE_BASE; resolved_cfg := cfg_of api_ok |}
                         (lit "secret") (lit "/feed") init_own_auth))
    (lit "Authorization") = Some (lit "Basic abc")
  /\ find_field (headers (request_of
                            {| resolved_apiBase := SAFE_BASE; resolved_cfg := cfg_of api_ok |}
                            (lit "secret") (lit "/feed") init_own_auth))
       (lit "Content-Type") = Some (lit "application/json").
Proof.
  split.
  - apply (proj1 (proj2 (request_headers_merge
                           {| resolved_apiBase := SAFE_BASE; resolved_cfg := cfg_of api_ok |}
                           (lit "secret") (lit "/feed") init_own_auth (lit "Authorization")))
             [(lit "Authorization", lit "Basic abc")]); reflexivity.
  - rewrite (proj2 (proj2 (request_headers_merge
                           {| resolved_apiBase := SAFE_BASE; resolved_cfg := cfg_of api_ok |}
                           (lit "secret") (lit "/feed") init_own_auth (lit "Content-Type")))
               [(lit "Authorization", lit "Basic abc")]); reflexivity.
Defined.

(** ** The four tools together *)

Section ToolsFurther.

Variable env : ProcessEnv.
Variable net : list Request -> Request -> Outcome.

Lemma only_trusted_refl (w : World) : only_trusted w w.
Proof. intros req H. left. exact H. Qed.

Lemma only_trusted_trans (w1 w2 w3 : World) :
  only_trusted w1 w2 -> only_trusted w2 w3 -> only_trusted w1 w3.
Proof.
  intros H12 H23 req H. destruct (H23 req H) as [H2 | Ht]; [apply H12, H2 | right; exact Ht].
Qed.

Lemma well_behaved_ret {A : Type} (a : A) : well_behaved (ret a).
Proof. intros w. split; [apply only_trusted_refl | auto]. Qed.

Lemma well_behaved_throw {A : Type} (e : exn) : well_behaved (@throw A e).
Proof. intros w. split; [apply only_trusted_refl | auto]. Qed.

Lemma well_behaved_lift {A : Type} (r : result A) : well_behaved (lift r).
Proof. intros w. split; [apply only_trusted_refl | auto]. Qed.

Lemma well_behaved_bind {A B : Type} (m : M A) (k : A -> M B) :
  well_behaved m -> (forall a, well_behaved (k a)) -> well_behaved (bind m k).
Proof.
  intros Hm Hk w. unfold bind. specialize (Hm w).
  destruct (m w) as [[a | e] w1]; simpl in *; [| exact Hm].
  destruct Hm as [Ht Hf]. specialize (Hk a w1). destruct Hk as [Ht' Hf'].
  split; [eapply only_trusted_trans; eauto |].
  intros Hw. destruct (Hf Hw) as [Hw1 Heq]. destruct (Hf' Hw1) as [Hw2 Heq'].
  split; [exact Hw2 | congruence].
Qed.

Lemma well_behaved_callMoltbook (api : Api) path init :
  well_behaved (callMoltbook env net api path init).
Proof.
  intros w. split.
  2:{ intros Hw. destruct (callMoltbook_timers env net api path init w Hw). auto. }
  destruct (callMoltbook_cases env net api path init w)
    as [(e & -> & _) | (cfg & key & Hcfg & Hkey)]; [apply only_trusted_refl |].
  rewrite (callMoltbook_run env net api path init w cfg key Hcfg Hkey).
  intros req [<- | Hin]; [right | left; exact Hin].
  apply (resolved_base_trusted api cfg path Hcfg).
Qed.

Lemma well_behaved_enveloped (api : Api) path init :
  well_behaved (out <- callMoltbook env net api path init ;; ret (envelope out)).
Proof.
  apply well_behaved_bind; [apply well_behaved_callMoltbook |].
  intros out. apply well_behaved_ret.
Qed.

Lemma tools_well_behaved (api : Api) (tool : Tool) id params :
  In tool (register env net api) -> well_behaved (execute tool id params).
Proof.
  intros [<- | [<- | [<- | [<- | []]]]]; simpl.
  - apply well_behaved_bind; [apply well_behaved_callMoltbook |]. intros me.
    apply well_behaved_bind; [apply well_behaved_callMoltbook |]. intros st.
    apply well_behaved_ret.
  - apply well_behaved_bind; [apply well_behaved_lift |]. intros cfg.
    destruct (negb (truthy_str _)); [apply well_behaved_throw |].
    destruct (blank _ && blank _); [apply well_behaved_throw |].
    apply well_behaved_enveloped.
  - apply well_behaved_bind; [apply well_behaved_lift |]. intros path.
    apply well_behaved_enveloped.
  - destruct (negb (truthy_str _)); [apply well_behaved_throw |].
    apply well_behaved_enveloped.
Qed.

(** Every request that any of the four registered tools sends, for any
    parameters and any network, goes to a URL that starts with the trusted
    prefix. *)
Theorem registered_tools_contact_trusted_prefix (api : Api) (tool : Tool) id params w :
  In tool (register env net api) ->
  forall req, In req (fetched (snd (execute tool id params w))) ->
              In req (fetched w) \/ has_trusted_prefix (url req).
Proof.
  intros Hin. apply (proj1 (tools_well_behaved api tool id params Hin w)).
Qed.

(** Whichever of the four registered tools runs and however it ends, the
    armed timers afterwards are the ones armed before: the status tool's
    two calls included. *)
Theorem registered_tools_release_timers (api : Api) (tool : Tool) id params w :
  In tool (register env net api) -> handles_fresh w ->
  timers (snd (execute tool id params w)) = timers w
  /\ handles_fresh (snd (execute tool id params w)).
Proof.
  intros Hin Hw.
  destruct (proj2 (tools_well_behaved api tool id params Hin w) Hw) as [H1 H2].
  split; [exact H2 | exact H1].
Qed.

(** The status tool makes its two calls in order, first [/agents/me] and
    then [/agents/status].  When the first call fails the second is not
    made and the failure is the tool's; when the second fails its failure
    is the tool's and nothing of the first reply is returned; otherwise the
    result wraps [{ me, status }]. *)
Theorem status_tool_sequence (api : Api) id params w cfg key :
  getCfg api = Return cfg -> getApiKey env api = Return key ->
  let req_me := request_of cfg key (lit "/agents/me") GET in
  let req_status := request_of cfg key (lit "/agents/status") GET in
  let r := execute (createMoltbookStatusTool env net api) id params w in
  match reply (net (fetched w) req_me) with
  | Throw e => fst r = Throw e /\ fetched (snd r) = req_me :: fetched w
  | Return me =>
      fetched (snd r) = req_status :: req_me :: fetched w
      /\ match reply (net (req_me :: fetched w) req_status) with
         | Throw e => fst r = Throw e
         | Return status =>
             fst r = Return (envelope (VObject [(lit "me", me); (lit "status", status)]))
         end
  end.
Proof.
  intros Hcfg Hkey. cbn zeta. cbn [execute createMoltbookStatusTool]. unfold bind.
  rewrite (callMoltbook_run env net api _ GET w cfg key Hcfg Hkey).
  destruct (reply (net (fetched w) _)) as [me | e]; [| split; reflexivity].
  rewrite (callMoltbook_run env net api _ GET _ cfg key Hcfg Hkey).
  cbn [fetched].
  destruct (reply (net _ _)) as [st | e]; split; reflexivity.
Qed.

End ToolsFurther.

Lemma registered_tools_contact_trusted_prefix_witness :
  has_trusted_prefix (lit "https://www.moltbook.com/api/v1/feed?sort=new&limit=10").
Proof.
  assert (Hin : In (createMoltbookFeedTool env_none (fixed_net Failed) api_ok)
                   (register env_none (fixed_net Failed) api_ok))
    by (right; right; left; reflexivity).
  assert (Hreq : In (request_of
                       {| resolved_apiBase := SAFE_BASE; resolved_cfg := cfg_of api_ok |}
                       (lit "secret") (lit "/feed?sort=new&limit=10") GET)
                    (fetched (snd (execute (createMoltbookFeedTool env_none
                                              (fixed_net Failed) api_ok)
                                     [] ∅ initial_world))))
    by (vm_compute; left; reflexivity).
  destruct (registered_tools_contact_trusted_prefix env_none (fixed_net Failed) api_ok
              _ [] ∅ initial_world Hin _ Hreq) as [Hold | H].
  - destruct Hold.
  - exact H.
Defined.

Lemma registered_tools_release_timers_witness :
  timers (snd (execute (createMoltbookStatusTool env_none (fixed_net TimedOut) api_ok)
                 [] ∅ initial_world)) = timers initial_world.
Proof.
  apply (proj1 (registered_tools_release_timers env_none (fixed_net TimedOut) api_ok
                  (createMoltbookStatusTool env_none (fixed_net TimedOut) api_ok) [] ∅
                  initial_world (or_introl eq_refl) initial_world_fresh)).
Defined.

Lemma status_tool_sequence_witness :
  fst (execute (createMoltbookStatusTool env_none (fixed_net (Responded empty_list)) api_ok)
         [] ∅ initial_world)
  = Return (envelope (VObject [(lit "me", VArray []); (lit "status", VArray [])]))
  /\ fetched (snd (execute (createMoltbookStatusTool env_none (fixed_net Failed) api_ok)
                     [] ∅ initial_world))
     = [request_of {| resolved_apiBase := SAFE_BASE; resolved_cfg := cfg_of api_ok |}
          (lit "secret") (lit "/agents/me") GET].
Proof.
  split.
  - apply (proj2 (status_tool_sequence env_none (fixed_net (Responded empty_list)) api_ok
                    [] ∅ initial_world _ _ api_ok_cfg api_ok_key)).
  - apply (proj2 (status_tool_sequence env_none (fixed_net Failed) api_ok
                    [] ∅ initial_world _ _ api_ok_cfg api_ok_key)).
Defined.

(** ** Post tool, further *)

Lemma post_body_fields (submolt title : jsstring) (content url : option jsstring) :
  post_body submolt title content url =
  VObject ([(lit "submolt", VString submolt); (lit "title", VString title)]
             ++ optional_entry "content" content ++ optional_entry "url" url).
Proof.
  unfold post_body, optional_entry.
  destruct content as [c |], url as [u |];
    try destruct (truthy_str c); try destruct (truthy_str u); reflexivity.
Qed.

(** The [submolt] constant of the post tool, case by case. *)
Lemma post_submolt_explicit (cfg : ResolvedCfg) (params : gmap string value) :
  post_submolt cfg params
  = match prop params "submolt" with
    | VString s =>
        match trim s with
        | [] => match defaultSubmolt (resolved_cfg cfg) with
                | Some (c :: d) => c :: d
                | _ => lit "general"
                end
        | c :: t => c :: t
        end
    | _ => match defaultSubmolt (resolved_cfg cfg) with
           | Some (c :: d) => c :: d
           | _ => lit "general"
           end
    end.
Proof.
  unfold post_submolt.
  destruct (prop params "submolt") as [| | | | s | |]; simpl;
    try (destruct (defaultSubmolt (resolved_cfg cfg)) as [[| c d] |]; reflexivity).
  destruct (trim s) as [| c t]; simpl; [| reflexivity].
  destruct (defaultSubmolt (resolved_cfg cfg)) as [[| c d] |]; reflexivity.
Qed.

Section PostFurther.

Variable env : ProcessEnv.
Variable net : list Request -> Request -> Outcome.

(** The request the post tool hands to the network once the title and one
    of content and link are there. *)
Lemma post_execute_sent (api : Api) id params w cfg key :
  getCfg api = Return cfg -> getApiKey env api = Return key ->
  trimmed_or_empty (prop params "title") <> [] ->
  blank (trimmed_if_string (prop params "content")) = false
  \/ blank (trimmed_if_string (prop params "url")) = false ->
  fetched (snd (execute (createMoltbookPostTool env net api) id params w))
  = {| url := resolved_apiBase cfg ++ lit "/posts";
       method := Some (lit "POST");
       headers := [(lit "Authorization", lit "Bearer " ++ key);
                   (lit "Content-Type", lit "application/json")];
       body := JSON_stringify
                 (VObject ([(lit "submolt", VString (post_submolt cfg params));
                            (lit "title", VString (trimmed_or_empty (prop params "title")))]
                             ++ optional_entry "content"
                                  (trimmed_if_string (prop params "content"))
                             ++ optional_entry "url"
                                  (trimmed_if_string (prop params "url")))) |}
    :: fetched w.
Proof.
  intros Hcfg Hkey Htitle Hsome.
  cbn [execute createMoltbookPostTool]. unfold bind at 1, lift. rewrite Hcfg.
  apply truthy_str_true in Htitle. rewrite Htitle. cbn [negb].
  assert (Hb : blank (trimmed_if_string (prop params "content"))
               && blank (trimmed_if_string (prop params "url")) = false).
  { destruct Hsome as [-> | ->]; [reflexivity | apply andb_false_r]. }
  rewrite Hb. rewrite enveloped_call_world.
  rewrite (callMoltbook_run env net api _ _ w cfg key Hcfg Hkey).
  cbn [snd fetched]. unfold request_of. cbn [init_method init_body init_headers].
  rewrite post_body_fields. reflexivity.
Qed.

(** A post that passes validation is sent as one POST request to
    [/posts] under the resolved base URL, with the two default headers and
    a JSON body that holds the community, the trimmed title, and then
    [content] and [url], each exactly when it is a string that is not blank
    after trimming. *)
Theorem post_request (api : Api) id params w cfg key :
  getCfg api = Return cfg -> getApiKey env api = Return key ->
  let title := trimmed_or_empty (prop params "title") in
  let content := trimmed_if_string (prop params "content") in
  let url_param := trimmed_if_string (prop params "url") in
  title <> [] -> blank content = false \/ blank url_param = false ->
  fetched (snd (execute (createMoltbookPostTool env net api) id params w))
  = {| url := resolved_apiBase cfg ++ lit "/posts";
       method := Some (lit "POST");
       headers := [(lit "Authorization", lit "Bearer " ++ key);
                   (lit "Content-Type", lit "application/json")];
       body := JSON_stringify
                 (VObject ([(lit "submolt", VString (post_submolt cfg params));
                            (lit "title", VString title)]
                             ++ optional_entry "content" content
                             ++ optional_entry "url" url_param)) |}
    :: fetched w.
Proof.
  intros Hcfg Hkey title content url_param Htitle Hsome.
  cbn [execute createMoltbookPostTool]. unfold bind at 1, lift. rewrite Hcfg.
  fold title content url_param.
  apply truthy_str_true in Htitle. rewrite Htitle. cbn [negb].
  assert (Hb : blank content && blank url_param = false).
  { destruct Hsome as [-> | ->]; [reflexivity | apply andb_false_r]. }
  rewrite Hb. rewrite enveloped_call_world.
  rewrite (callMoltbook_run env net api _ _ w cfg key Hcfg Hkey).
  cbn [snd fetched]. unfold request_of. cbn [init_method init_body init_headers].
  rewrite post_body_fields. reflexivity.
Qed.

(** The community a post is sent to is never the empty string: the body of
    the request the post tool sends holds, as [submolt], the trimmed
    [submolt] parameter when that is a string and not blank, else the
    configured default when that is not empty, else [general]. *)
Theorem post_submolt_resolution (api : Api) id params w cfg key :
  getCfg api = Return cfg -> getApiKey env api = Return key ->
  let title := match prop params "title" with VString s => trim s | _ => [] end in
  let content := match prop params "content" with VString s => Some (trim s) | _ => None end in
  let link := match prop params "url" with VString s => Some (trim s) | _ => None end in
  title <> [] -> blank content = false \/ blank link = false ->
  let fallback := match defaultSubmolt (resolved_cfg cfg) with
                  | Some (c :: d) => c :: d
                  | _ => lit "general"
                  end in
  let submolt := match prop params "submolt" with
                 | VString s => match trim s with [] => fallback | c :: t => c :: t end
                 | _ => fallback
                 end in
  submolt <> []
  /\ fetched (snd (execute (createMoltbookPostTool env net api) id params w))
     = {| url := resolved_apiBase cfg ++ lit "/posts";
          method := Some (lit "POST");
          headers := [(lit "Authorization", lit "Bearer " ++ key);
                      (lit "Content-Type", lit "application/json")];
          body := JSON_stringify
                    (VObject ([(lit "submolt", VString submolt);
                               (lit "title", VString title)]
                                ++ optional_entry "content" content
                                ++ optional_entry "url" link)) |}
       :: fetched w.
Proof.
  intros Hcfg Hkey title content link Htitle Hsome fallback submolt. split.
  - subst submolt fallback.
    destruct (prop params "submolt") as [| | | | s | |];
      try (destruct (defaultSubmolt (resolved_cfg cfg)) as [[| c d] |]; discriminate).
    destruct (trim s) as [| c t]; [| discriminate].
    destruct (defaultSubmolt (resolved_cfg cfg)) as [[| c d] |]; discriminate.
  - pose proof (post_execute_sent api id params w cfg key Hcfg Hkey Htitle Hsome) as H.
    rewrite post_submolt_explicit in H. exact H.
Qed.

(** What the post tool sends is trimmed: the title, the content and the
    link in the body of the request are the parameters without the white
    space around them, and so is a community taken from the parameters;
    none of them starts or ends with white space. *)
Theorem post_values_are_trimmed (api : Api) id params w cfg key :
  getCfg api = Return cfg -> getApiKey env api = Return key ->
  let given k := match prop params k with VString s => Some (trim s) | _ => None end in
  let title := match given "title" with Some t => t | None => [] end in
  title <> [] -> blank (given "content") = false \/ blank (given "url") = false ->
  exists submolt,
    fetched (snd (execute (createMoltbookPostTool env net api) id params w))
    = {| url := resolved_apiBase cfg ++ lit "/posts";
         method := Some (lit "POST");
         headers := [(lit "Authorization", lit "Bearer " ++ key);
                     (lit "Content-Type", lit "application/json")];
         body := JSON_stringify
                   (VObject ([(lit "submolt", VString submolt);
                              (lit "title", VString title)]
                               ++ optional_entry "content" (given "content")
                               ++ optional_entry "url" (given "url"))) |}
      :: fetched w
    /\ no_outer_space title
    /\ (forall s, given "content" = Some s -> no_outer_space s)
    /\ (forall s, given "url" = Some s -> no_outer_space s)
    /\ (forall s, given "submolt" = Some s -> s <> [] ->
          submolt = s /\ no_outer_space s).
Proof.
  intros Hcfg Hkey given title Htitle Hsome.
  assert (Hgiven : forall k s, given k = Some s -> no_outer_space s).
  { intros k s. unfold given. destruct (prop params k); try discriminate.
    intros [= <-]. apply trim_no_outer_space. }
  assert (Ht : title = trimmed_or_empty (prop params "title")).
  { unfold title, given. destruct (prop params "title"); reflexivity. }
  exists (post_submolt cfg params). split; [| split; [| split; [| split]]].
  - rewrite Ht in Htitle |- *.
    exact (post_execute_sent api id params w cfg key Hcfg Hkey Htitle Hsome).
  - unfold title. destruct (given "title") as [t |] eqn:Hg;
      [exact (Hgiven _ _ Hg) | split; reflexivity].
  - apply Hgiven.
  - apply Hgiven.
  - intros s Hs Hne. split; [| exact (Hgiven _ _ Hs)].
    unfold post_submolt. unfold given in Hs.
    destruct (prop params "submolt"); try discriminate.
    injection Hs as <-. simpl. apply truthy_str_true in Hne. rewrite Hne. reflexivity.
Qed.

End PostFurther.

Lemma post_request_witness :
  map body (fetched (snd (execute (createMoltbookPostTool env_none (fixed_net Failed) api_ok)
                            [] params_link initial_world)))
  = [Some (quoted "{'submolt':'cats','title':'Hello','content':'World','url':'https://example.org/a'}")].
Proof.
  rewrite (post_request env_none (fixed_net Failed) api_ok [] params_link initial_world
             _ _ api_ok_cfg api_ok_key).
  - vm_compute. reflexivity.
  - vm_compute. discriminate.
  - left. vm_compute. reflexivity.
Defined.

Lemma api_news_cfg :
  getCfg api_news = Return {| resolved_apiBase := SAFE_BASE; resolved_cfg := cfg_of api_news |}.
Proof. vm_compute. reflexivity. Qed.

Lemma api_news_key : getApiKey env_none api_news = Return (lit "secret").
Proof. vm_compute. reflexivity. Qed.

Lemma post_submolt_resolution_witness :
  let sent api params :=
    map body (fetched (snd (execute (createMoltbookPostTool env_none (fixed_net Failed) api)
                              [] params initial_world))) in
  sent api_news params_hello
  = [Some (quoted "{'submolt':'news','title':'Hello','content':'World'}")]
  /\ sent api_ok params_hello
     = [Some (quoted "{'submolt':'general','title':'Hello','content':'World'}")]
  /\ sent api_news params_padded_post
     = [Some (quoted "{'submolt':'cats','title':'Hello','content':'World','url':'https://example.org/a'}")].
Proof.
  cbv beta zeta.
  assert (Ht : match prop params_hello "title" with VString s => trim s | _ => [] end
               <> []) by (vm_compute; discriminate).
  assert (Hc : blank (match prop params_hello "content" with
                      | VString s => Some (trim s)
                      | _ => None
                      end) = false
               \/ blank (match prop params_hello "url" with
                         | VString s => Some (trim s)
                         | _ => None
                         end) = false) by (left; vm_compute; reflexivity).
  assert (Ht' : match prop params_padded_post "title" with VString s => trim s | _ => [] end
                <> []) by (vm_compute; discriminate).
  assert (Hc' : blank (match prop params_padded_post "content" with
                       | VString s => Some (trim s)
                       | _ => None
                       end) = false
                \/ blank (match prop params_padded_post "url" with
                          | VString s => Some (trim s)
                          | _ => None
                          end) = false) by (left; vm_compute; reflexivity).
  pose proof (proj2 (post_submolt_resolution env_none (fixed_net Failed) api_news []
                       params_hello initial_world _ _ api_news_cfg api_news_key Ht Hc))
    as Hnews.
  pose proof (proj2 (post_submolt_resolution env_none (fixed_net Failed) api_ok []
                       params_hello initial_world _ _ api_ok_cfg api_ok_key Ht Hc))
    as Hgeneral.
  pose proof (proj2 (post_submolt_resolution env_none (fixed_net Failed) api_news []
                       params_padded_post initial_world _ _ api_news_cfg api_news_key
                       Ht' Hc'))
    as Hcats.
  rewrite Hnews, Hgeneral, Hcats. vm_compute. repeat split.
Defined.

Lemma post_values_are_trimmed_witness :
  map body (fetched (snd (execute (createMoltbookPostTool env_none (fixed_net Failed) api_ok)
                            [] params_padded_post initial_world)))
  = [Some (quoted "{'submolt':'cats','title':'Hello','content':'World','url':'https://example.org/a'}")]
  /\ no_outer_space (lit "Hello").
Proof.
  assert (Ht : match match prop params_padded_post "title" with
                     | VString s => Some (trim s)
                     | _ => None
                     end with
               | Some t => t
               | None => []
               end <> []) by (vm_compute; discriminate).
  assert (Hc : blank (match prop params_padded_post "content" with
                      | VString s => Some (trim s)
                      | _ => None
                      end) = false
               \/ blank (match prop params_padded_post "url" with
                         | VString s => Some (trim s)
                         | _ => None
                         end) = false) by (left; vm_compute; reflexivity).
  destruct (post_values_are_trimmed env_none (fixed_net Failed) api_ok []
              params_padded_post initial_world _ _ api_ok_cfg api_ok_key Ht Hc)
    as (submolt & Hsent & Htitle & _ & _ & Hsub).
  assert (Hs : match prop params_padded_post "submolt" with
               | VString s => Some (trim s)
               | _ => None
               end = Some (lit "cats")) by (vm_compute; reflexivity).
  destruct (Hsub (lit "cats") Hs ltac:(vm_compute; discriminate)) as [-> _].
  split; [rewrite Hsent; vm_compute; reflexivity | exact Htitle].
Defined.

(** ** Query strings *)

Ltac char_arith :=
  rewrite ?orb_true_iff, ?andb_true_iff, ?orb_false_iff, ?andb_false_iff,
    ?N.leb_le, ?N.eqb_eq, ?N.eqb_neq, ?N.ltb_lt, ?N.leb_gt, ?N.ltb_ge in *;
  lia.

Lemma hex_upper_no_delimiter (d : N) : is_delimiter (hex_upper d) = false.
Proof. unfold is_delimiter, hex_upper. destruct (d <? 10) eqn:Hd; char_arith. Qed.

Lemma percent_encode_delimiter_free (c : N) : delimiter_free (percent_encode c).
Proof.
  unfold delimiter_free, percent_encode. apply Forall_concat, Forall_map.
  apply Forall_forall. intros b _. unfold percent.
  repeat constructor; apply hex_upper_no_delimiter.
Qed.

Lemma form_encode_delimiter_free (s : jsstring) : delimiter_free (form_encode s).
Proof.
  unfold delimiter_free, form_encode. apply Forall_concat, Forall_map.
  apply Forall_forall. intros p _. destruct p as [c | u]; simpl.
  2: apply percent_encode_delimiter_free.
  destruct (c =? 32) eqn:Hsp; [repeat constructor |].
  destruct (is_alnum c || (c =? 42) || (c =? 45) || (c =? 46) || (c =? 95)) eqn:Hc;
    [| apply percent_encode_delimiter_free].
  repeat constructor. unfold is_alnum, is_delimiter in *. char_arith.
Qed.

Lemma encode_uri_points_delimiter_free (l : list code_point) (t : jsstring) :
  encode_uri_points l = Some t -> delimiter_free t.
Proof.
  revert t. induction l as [|p l IH]; intros t; simpl.
  - intros [= <-]. constructor.
  - destruct p as [c | u]; [| discriminate].
    destruct (encode_uri_points l) as [t' |]; [| discriminate].
    intros [= <-]. apply Forall_app. split; [| apply IH; reflexivity].
    destruct (uri_unreserved c) eqn:Hc; [| apply percent_encode_delimiter_free].
    repeat constructor. unfold uri_unreserved, is_alnum, is_delimiter in *. char_arith.
Qed.

(** The path the search tool requests has exactly the parameters [q],
    [type] and [limit], in this order: the three values are encoded, and
    no encoded value holds a character that separates parts of a URL
    ([&], [=], [?], [#], [/] or a space), so a query or type cannot add a
    parameter of its own. *)
Theorem search_path_parameters (params : gmap string value) :
  let q := form_encode (search_query params) in
  let type := form_encode (string_or (prop params "type") (lit "all")) in
  let limit := form_encode (Number_toString (clamp_limit (prop params "limit") 20)) in
  search_path params
  = lit "/search?q=" ++ q ++ lit "&type=" ++ type ++ lit "&limit=" ++ limit
  /\ delimiter_free q /\ delimiter_free type /\ delimiter_free limit.
Proof.
  cbn zeta. split; [| repeat apply conj; apply form_encode_delimiter_free].
  unfold search_path, URLSearchParams_toString. cbn [map join fst snd].
  change (form_encode (lit "q") ++ [61]) with (lit "q=").
  change (form_encode (lit "type")) with (lit "type").
  change (form_encode (lit "limit")) with (lit "limit").
  change (lit "/search?q=") with (lit "/search?" ++ lit "q=").
  change (lit "&type=") with ([38] ++ lit "type" ++ [61]).
  change (lit "&limit=") with ([38] ++ lit "limit" ++ [61]).
  rewrite <- !app_assoc. reflexivity.
Qed.

Section FeedFurther.

Variable env : ProcessEnv.
Variable net : list Request -> Request -> Outcome.

(** The values the feed tool puts into the URL it requests cannot add
    parameters of their own: the query holds [sort], [limit] and, on the
    general posts path, [submolt], each followed by its encoded value, and
    no encoded value holds a character that separates parts of a URL
    ([&], [=], [?], [#], [/] or a space). *)
Theorem feed_values_are_encoded (api : Api) id params w cfg key :
  getCfg api = Return cfg -> getApiKey env api = Return key ->
  let sort :=
    form_encode (match prop params "sort" with VString s => s | _ => lit "new" end) in
  let limit :=
    form_encode (Number_toString
                   (match prop params "limit" with
                    | VNumber n => Math_max (of_Z 1) (Math_min (of_Z 50) n)
                    | _ => of_Z 10
                    end)) in
  let submolt := match prop params "submolt" with VString s => trim s | _ => [] end in
  let requested path :=
    map url (fetched (snd (execute (createMoltbookFeedTool env net api) id params w)))
    = (resolved_apiBase cfg ++ path) :: map url (fetched w) in
  delimiter_free sort /\ delimiter_free limit
  /\ (prop params "personalized" <> VBool false ->
      requested (lit "/feed?" ++ lit "sort=" ++ sort ++ lit "&limit=" ++ limit))
  /\ (prop params "personalized" = VBool false -> submolt = [] ->
      requested (lit "/posts?" ++ lit "sort=" ++ sort ++ lit "&limit=" ++ limit))
  /\ (prop params "personalized" = VBool false -> submolt <> [] ->
      forall encoded, encodeURIComponent submolt = Some encoded ->
      delimiter_free encoded
      /\ requested (lit "/posts?" ++ (lit "sort=" ++ sort ++ lit "&limit=" ++ limit)
                      ++ lit "&submolt=" ++ encoded)).
Proof.
  intros Hcfg Hkey. cbn zeta.
  change (match prop params "limit" with
          | VNumber n => Math_max (of_Z 1) (Math_min (of_Z 50) n)
          | _ => of_Z 10
          end) with (feed_limit params).
  destruct (feed_path_cases params) as (Hfeed & Hposts & Hsub & _).
  split; [apply form_encode_delimiter_free |].
  split; [apply form_encode_delimiter_free |].
  split; [| split].
  - intros Hp.
    rewrite (feed_request_sent env net api id params w cfg key _ Hcfg Hkey (Hfeed Hp)).
    reflexivity.
  - intros Hp Hs.
    rewrite (feed_request_sent env net api id params w cfg key _ Hcfg Hkey (Hposts Hp Hs)).
    reflexivity.
  - intros Hp Hs encoded Henc. split.
    + apply (encode_uri_points_delimiter_free _ _ Henc).
    + rewrite (feed_request_sent env net api id params w cfg key _ Hcfg Hkey
                 (Hsub Hp Hs encoded Henc)).
      reflexivity.
Qed.

End FeedFurther.

Lemma feed_values_are_encoded_witness :
  map url (fetched (snd (execute (createMoltbookFeedTool env_none (fixed_net Failed) api_ok)
                           [] params_cats_dogs initial_world)))
  = [lit "https://www.moltbook.com/api/v1/posts?sort=top%26limit%3D999&limit=10&submolt=cats%20%26%20dogs%3F"]
  /\ delimiter_free (lit "cats%20%26%20dogs%3F").
Proof.
  assert (Hp : prop params_cats_dogs "personalized" = VBool false) by reflexivity.
  assert (Hs : match prop params_cats_dogs "submolt" with VString s => trim s | _ => [] end
               <> []) by (vm_compute; discriminate).
  assert (Henc : encodeURIComponent
                   (match prop params_cats_dogs "submolt" with
                    | VString s => trim s
                    | _ => []
                    end) = Some (lit "cats%20%26%20dogs%3F")) by (vm_compute; reflexivity).
  destruct (proj2 (proj2 (proj2 (proj2
              (feed_values_are_encoded env_none (fixed_net Failed) api_ok []
                 params_cats_dogs initial_world _ _ api_ok_cfg api_ok_key))))
              Hp Hs _ Henc) as [Hfree Hsent].
  split; [rewrite Hsent; vm_compute; reflexivity | exact Hfree].
Defined.

(** The limit of the search tool: a number other than NaN is clamped to
    the interval from 1 to 50, and any value that is not a number (a
    missing limit, a string of digits) gives 20. *)
Theorem search_limit_clamped (params : gmap string value) :
  let limit := clamp_limit (prop params "limit") 20 in
  (forall n, prop params "limit" = VNumber n -> n <> NaN ->
             in_range 1 50 limit = true
             /\ (in_range 1 50 n = true -> limit = n)
             /\ (lt n (of_Z 1) = true -> limit = of_Z 1)
             /\ (lt (of_Z 50) n = true -> limit = of_Z 50))
  /\ ((forall n, prop params "limit" <> VNumber n) -> limit = of_Z 20).
Proof.
  cbn zeta. split.
  - intros n -> Hn. apply clamp_limit_number, Hn.
  - intros Hno. destruct (prop params "limit") as [| | | n | | |]; try reflexivity.
    exfalso. apply (Hno n). reflexivity.
Qed.

Lemma search_limit_clamped_witness :
  clamp_limit (prop {["limit" := VNumber (of_Z 500)]} "limit") 20 = of_Z 50
  /\ clamp_limit (prop {["limit" := VString (lit "5")]} "limit") 20 = of_Z 20.
Proof.
  split.
  - apply (proj1 (search_limit_clamped {["limit" := VNumber (of_Z 500)]}) (of_Z 500)).
    + reflexivity.
    + vm_compute. discriminate.
    + vm_compute. reflexivity.
  - apply (proj2 (search_limit_clamped {["limit" := VString (lit "5")]})).
    intros n H. vm_compute in H. discriminate.
Defined.

(** ** Result envelopes *)

Lemma serialize_defined (gap indent : jsstring) (v : value) :
  v <> VUndefined -> exists t, serialize gap indent v = Some t.
Proof. destruct v; simpl; intros H; eauto. congruence. Qed.

Lemma complete_defined (stack : list frame) (v : value) :
  v <> VUndefined -> defined_state (complete stack v).
Proof.
  intros Hv. destruct stack as [|[items | fields key] rest]; simpl;
    (split; [intros v' [= <-] || intros v' H; try discriminate | intros r v' H; discriminate]);
    try exact Hv.
Qed.

Lemma defined_state_mode (st : pstate) (m : mode) :
  defined_state st -> (forall rest v, m = MLiteral rest v -> v <> VUndefined) ->
  defined_state {| stack := stack st; want := want st; lexing := m |}.
Proof. intros [Hw _] Hm. split; simpl; assumption. Qed.

Lemma defined_state_idle (stack : list frame) (e : expect) :
  (forall v, e <> EDone v) -> defined_state (idle stack e).
Proof.
  intros He. split; simpl; [intros v H; exfalso; apply (He v H) | discriminate].
Qed.

Ltac defined_leaf Hinv :=
  let H := fresh "H" in
  intros H;
  first
    [ discriminate H
    | injection H as <-;
      first
        [ exact Hinv
        | apply complete_defined; discriminate
        | apply defined_state_idle; discriminate
        | split; simpl;
          [ let v := fresh "v" in let Hv := fresh "Hv" in
            intros v Hv;
            first [ discriminate Hv | apply (proj1 Hinv v); congruence ]
          | let r := fresh "r" in let v := fresh "v" in let Hv := fresh "Hv" in
            intros r v Hv;
            first [ discriminate Hv | injection Hv as _ <-; discriminate ] ] ] ].

Lemma step_idle_defined (st st' : pstate) (c : N) :
  defined_state st -> step_idle st c = Some st' -> defined_state st'.
Proof.
  intros Hinv. unfold step_idle, start.
  repeat match goal with
         | |- context [if ?b then _ else _] => destruct b
         | |- context [match want st with _ => _ end] => destruct (want st) eqn:?
         | |- context [match stack st with _ => _ end] =>
             destruct (stack st) as [|[? | ? ?] ?] eqn:?
         end;
    defined_leaf Hinv.
Qed.

Lemma step_defined (st st' : pstate) (c : N) :
  defined_state st -> step st c = Some st' -> defined_state st'.
Proof.
  intros Hinv. unfold step. destruct (lexing st) as [| acc esc | acc | rest v] eqn:Hl.
  - apply (step_idle_defined st st' c Hinv).
  - unfold step_string, complete_string.
    destruct esc as [| | ds];
      repeat match goal with
             | |- context [if ?b then _ else _] => destruct b
             | |- context [match want st with _ => _ end] => destruct (want st) eqn:?
             | |- context [match hex_value c with _ => _ end] => destruct (hex_value c)
             | |- context [match ?l with [] => _ | _ :: _ => _ end] => destruct l
             end;
      defined_leaf Hinv.
  - destruct (_ || _).
    + defined_leaf Hinv.
    + destruct (number_of_lexeme (rev acc)) as [n |]; [| discriminate].
      apply (step_idle_defined _ st' c).
      apply complete_defined. discriminate.
  - assert (Hv : v <> VUndefined) by (apply (proj2 Hinv rest v Hl)).
    destruct rest as [|x [|y r]]; [discriminate | |];
      destruct (c =? x); try discriminate; intros [= <-].
    + apply complete_defined, Hv.
    + split; simpl; [intros v0 Hv0; apply (proj1 Hinv v0 Hv0) |].
      intros r0 v0 [= _ <-]. exact Hv.
Qed.

Lemma run_defined (text : jsstring) (st st' : pstate) :
  defined_state st -> run st text = Some st' -> defined_state st'.
Proof.
  revert st. induction text as [|c r IH]; intros st Hinv; simpl.
  - intros [= <-]. exact Hinv.
  - destruct (step st c) as [st1 |] eqn:Hs; [| discriminate].
    apply IH, (step_defined st st1 c Hinv Hs).
Qed.

(** [JSON.parse] never yields [undefined]. *)
Lemma JSON_parse_defined (text : jsstring) (v : value) :
  JSON_parse text = Some v -> v <> VUndefined.
Proof.
  unfold JSON_parse. destruct (run (idle [] EValue) text) as [st |] eqn:Hrun; [| discriminate].
  assert (Hinv : defined_state st).
  { apply (run_defined text _ st (defined_state_idle [] EValue ltac:(discriminate)) Hrun). }
  unfold finish.
  assert (Hdone : forall st0, defined_state st0 ->
            match lexing st0, want st0 with
            | MIdle, EDone v0 => Some v0
            | _, _ => None
            end = Some v -> v <> VUndefined).
  { intros st0 [Hw _]. destruct (lexing st0); try discriminate.
    destruct (want st0) eqn:Hwant; try discriminate. intros [= <-]. apply Hw. reflexivity. }
  destruct (lexing st) as [| acc esc | acc | rest v0] eqn:Hl; try discriminate.
  - destruct (want st) as [| | | | | | v0] eqn:Hw; try discriminate.
    intros [= <-]. apply (proj1 Hinv v0 Hw).
  - destruct (number_of_lexeme (rev acc)) as [n |]; [| discriminate].
    apply Hdone, complete_defined. discriminate.
Qed.

Lemma parsed_body_defined (text : jsstring) : parsed_body text <> VUndefined.
Proof.
  unfold parsed_body. destruct (truthy_str text); [| discriminate].
  destruct (JSON_parse text) as [v |] eqn:Hp; [| discriminate].
  apply (JSON_parse_defined text v Hp).
Qed.

Lemma envelope_defined (out : value) :
  out <> VUndefined ->
  exists t, JSON_stringify_2 out = Some t /\ envelope out = envelope_of t out.
Proof.
  intros H. destruct (serialize_defined [32; 32] [] out H) as [t Ht].
  exists t. split; [exact Ht |]. unfold envelope, envelope_of.
  unfold JSON_stringify_2. rewrite Ht. reflexivity.
Qed.

Lemma bind_Return {A B : Type} (m : M A) (k : A -> M B) (w : World) (b : B) :
  fst (bind m k w) = Return b ->
  exists a w1, m w = (Return a, w1) /\ fst (k a w1) = Return b.
Proof.
  unfold bind. destruct (m w) as [[a | e] w1]; simpl; [eauto | discriminate].
Qed.

Section EnvelopeProperties.

Variable env : ProcessEnv.
Variable net : list Request -> Request -> Outcome.

(** What a bridged call returns is never [undefined]. *)
Lemma callMoltbook_Return (api : Api) path init w (out : value) :
  fst (callMoltbook env net api path init w) = Return out -> out <> VUndefined.
Proof.
  destruct (callMoltbook_cases env net api path init w)
    as [(e & -> & _) | (cfg & key & Hcfg & Hkey)]; [discriminate |].
  rewrite (callMoltbook_run env net api path init w cfg key Hcfg Hkey). simpl.
  destruct (net (fetched w) _) as [res | |]; simpl; try discriminate.
  destruct (ok res); [| discriminate]. intros [= <-]. apply parsed_body_defined.
Qed.

Lemma enveloped_Return (api : Api) path init w (v : value) :
  fst ((out <- callMoltbook env net api path init ;; ret (envelope out)) w) = Return v ->
  exists t out, v = envelope_of t out /\ JSON_stringify_2 out = Some t.
Proof.
  intros H. apply bind_Return in H. destruct H as (out & w1 & Hcall & Hret).
  injection Hret as <-.
  assert (Hout : out <> VUndefined).
  { apply (callMoltbook_Return api path init w). rewrite Hcall. reflexivity. }
  destruct (envelope_defined out Hout) as (t & Ht & Henv).
  exists t, out. split; [exact Henv | exact Ht].
Qed.

(** Whatever one of the four registered tools returns is a result
    envelope: one text item, which is a string, namely the JSON of the
    details printed with an indent of two, and the details themselves. *)
Theorem registered_tools_return_envelopes (api : Api) (tool : Tool) id params w v :
  In tool (register env net api) ->
  fst (execute tool id params w) = Return v ->
  exists t out, v = envelope_of t out /\ JSON_stringify_2 out = Some t.
Proof.
  intros [<- | [<- | [<- | [<- | []]]]]; cbn [execute createMoltbookStatusTool
    createMoltbookPostTool createMoltbookFeedTool createMoltbookSearchTool]; intros H.
  - apply bind_Return in H. destruct H as (me & w1 & _ & H).
    apply bind_Return in H. destruct H as (st & w2 & _ & H).
    injection H as <-.
    destruct (envelope_defined (VObject [(lit "me", me); (lit "status", st)])
                ltac:(discriminate)) as (t & Ht & Henv).
    eauto.
  - apply bind_Return in H. destruct H as (cfg & w1 & _ & H).
    destruct (negb (truthy_str _)); [discriminate |].
    destruct (blank _ && blank _); [discriminate |].
    apply (enveloped_Return api _ _ w1 v H).
  - apply bind_Return in H. destruct H as (path & w1 & _ & H).
    apply (enveloped_Return api _ _ w1 v H).
  - destruct (negb (truthy_str _)); [discriminate |].
    apply (enveloped_Return api _ _ w v H).
Qed.

End EnvelopeProperties.

Lemma registered_tools_return_envelopes_witness :
  exists t out,
    envelope (VArray []) = envelope_of t out /\ JSON_stringify_2 out = Some t.
Proof.
  assert (Hin : In (createMoltbookFeedTool env_none (fixed_net (Responded empty_list)) api_ok)
                   (register env_none (fixed_net (Responded empty_list)) api_ok))
    by (right; right; left; reflexivity).
  assert (Hret : fst (execute (createMoltbookFeedTool env_none
                                 (fixed_net (Responded empty_list)) api_ok)
                        [] ∅ initial_world) = Return (envelope (VArray [])))
    by (vm_compute; reflexivity).
  exact (registered_tools_return_envelopes env_none (fixed_net (Responded empty_list))
           api_ok _ [] ∅ initial_world _ Hin Hret).
Defined.

(** ** Feed tool, further *)

(** The limit of the feed tool: a number other than NaN is clamped to the
    interval from 1 to 50 (500 gives 50, 0 gives 1) and is never a reason
    to fail, and any value that is not a number gives 10. *)
Theorem feed_limit_clamped (params : gmap string value) :
  (forall n, prop params "limit" = VNumber n -> n <> NaN ->
             in_range 1 50 (feed_limit params) = true
             /\ (in_range 1 50 n = true -> feed_limit params = n)
             /\ (lt n (of_Z 1) = true -> feed_limit params = of_Z 1)
             /\ (lt (of_Z 50) n = true -> feed_limit params = of_Z 50))
  /\ ((forall n, prop params "limit" <> VNumber n) -> feed_limit params = of_Z 10).
Proof.
  unfold feed_limit. split.
  - intros n -> Hn. apply clamp_limit_number, Hn.
  - intros Hno. destruct (prop params "limit") as [| | | n | | |]; try reflexivity.
    exfalso. apply (Hno n). reflexivity.
Qed.

Lemma feed_limit_clamped_witness :
  feed_limit {["limit" := VNumber (of_Z 500)]} = of_Z 50
  /\ feed_limit {["limit" := VNumber (of_Z 0)]} = of_Z 1
  /\ feed_limit {["limit" := VString (lit "5")]} = of_Z 10.
Proof.
  split; [| split].
  - apply (proj1 (feed_limit_clamped {["limit" := VNumber (of_Z 500)]}) (of_Z 500)).
    + reflexivity.
    + vm_compute. discriminate.
    + vm_compute. reflexivity.
  - apply (proj1 (feed_limit_clamped {["limit" := VNumber (of_Z 0)]}) (of_Z 0)).
    + reflexivity.
    + vm_compute. discriminate.
    + vm_compute. reflexivity.
  - apply (proj2 (feed_limit_clamped {["limit" := VString (lit "5")]})).
    intros n H. vm_compute in H. discriminate.
Defined.

(** ** The four tools without a usable config *)

Section ToolsWithoutConfig.

Variable env : ProcessEnv.
Variable net : list Request -> Request -> Outcome.

Lemma callMoltbook_unconfigured (api : Api) path init w :
  (exists e, getCfg api = Throw e \/ getApiKey env api = Throw e) ->
  exists e, callMoltbook env net api path init w = (Throw e, w).
Proof.
  intros [e He].
  destruct (callMoltbook_cases env net api path init w)
    as [(e' & H & _) | (cfg & key & Hcfg & Hkey)]; [eauto |].
  destruct He as [He | He]; congruence.
Qed.

Lemma enveloped_unconfigured (api : Api) path init w :
  (exists e, getCfg api = Throw e \/ getApiKey env api = Throw e) ->
  exists e, (out <- callMoltbook env net api path init ;; ret (envelope out)) w
            = (Throw e, w).
Proof.
  intros H. destruct (callMoltbook_unconfigured api path init w H) as [e He].
  exists e. unfold bind. rewrite He. reflexivity.
Qed.

(** When the base URL fails the allow-list check or no key can be
    resolved, every invocation of each of the four registered tools fails
    and leaves the world untouched: no request is sent and no timer is
    armed, whatever the parameters. *)
Theorem registered_tools_fail_without_config (api : Api) (tool : Tool) id params w :
  (exists e, getCfg api = Throw e \/ getApiKey env api = Throw e) ->
  In tool (register env net api) ->
  exists e, execute tool id params w = (Throw e, w).
Proof.
  intros Hbad.
  assert (Hen : forall path init,
            exists e, (out <- callMoltbook env net api path init ;; ret (envelope out)) w
                      = (Throw e, w))
    by (intros; apply enveloped_unconfigured, Hbad).
  intros [<- | [<- | [<- | [<- | []]]]]; cbn [execute createMoltbookStatusTool
    createMoltbookPostTool createMoltbookFeedTool createMoltbookSearchTool].
  - destruct (callMoltbook_unconfigured api (lit "/agents/me") GET w Hbad) as [e He].
    exists e. unfold bind at 1. rewrite He. reflexivity.
  - clear Hbad. unfold bind at 1, lift.
    destruct (getCfg api) as [cfg | e]; [| eexists; reflexivity].
    destruct (negb (truthy_str _)); [eexists; reflexivity |].
    destruct (blank _ && blank _); [eexists; reflexivity |].
    apply Hen.
  - unfold bind at 1, lift.
    destruct (feed_path params) as [path | e]; [| eexists; reflexivity].
    apply Hen.
  - destruct (negb (truthy_str _)); [eexists; reflexivity |].
    apply Hen.
Qed.

(** A tool that returns has made its round trips: the status tool has sent
    exactly two requests, each of the other three exactly one. *)
Theorem registered_tools_round_trips (api : Api) (tool : Tool) id params w v :
  In tool (register env net api) ->
  fst (execute tool id params w) = Return v ->
  List.length (fetched (snd (execute tool id params w)))
  = (List.length (fetched w)
     + if str_eqb (name tool) (lit "moltbook_status") then 2 else 1)%nat.
Proof.
  assert (Hcall : forall path init w0 out w1,
            callMoltbook env net api path init w0 = (Return out, w1) ->
            List.length (fetched w1) = S (List.length (fetched w0))).
  { intros path init w0 out w1 H.
    destruct (callMoltbook_cases env net api path init w0)
      as [(e & He & _) | (cfg & key & Hcfg & Hkey)]; [congruence |].
    rewrite (callMoltbook_run env net api path init w0 cfg key Hcfg Hkey) in H.
    injection H as _ <-. reflexivity. }
  assert (Henv : forall path init w0,
            fst ((out <- callMoltbook env net api path init ;; ret (envelope out)) w0)
            = Return v ->
            List.length (fetched (snd ((out <- callMoltbook env net api path init ;;
                                        ret (envelope out)) w0)))
            = (List.length (fetched w0) + 1)%nat).
  { intros path init w0 H. rewrite enveloped_call_world.
    apply bind_Return in H. destruct H as (out & w1 & Hc & _).
    rewrite Hc. simpl. rewrite (Hcall _ _ _ _ _ Hc). lia. }
  intros [<- | [<- | [<- | [<- | []]]]]; cbn [execute name createMoltbookStatusTool
    createMoltbookPostTool createMoltbookFeedTool createMoltbookSearchTool].
  - change (str_eqb (lit "moltbook_status") (lit "moltbook_status")) with true.
    unfold bind. destruct (callMoltbook env net api (lit "/agents/me") GET w)
      as [[me | e] w1] eqn:H1; [| discriminate].
    destruct (callMoltbook env net api (lit "/agents/status") GET w1)
      as [[st | e] w2] eqn:H2; [| discriminate].
    intros _. simpl. rewrite (Hcall _ _ _ _ _ H2), (Hcall _ _ _ _ _ H1). lia.
  - change (str_eqb (lit "moltbook_post") (lit "moltbook_status")) with false.
    unfold bind at 1 3, lift. destruct (getCfg api) as [cfg | e]; [| discriminate].
    destruct (negb (truthy_str _)); [discriminate |].
    destruct (blank _ && blank _); [discriminate |].
    apply Henv.
  - change (str_eqb (lit "moltbook_feed") (lit "moltbook_status")) with false.
    unfold bind at 1 3, lift. destruct (feed_path params) as [path | e]; [| discriminate].
    apply Henv.
  - change (str_eqb (lit "moltbook_search") (lit "moltbook_status")) with false.
    destruct (negb (truthy_str _)); [discriminate |].
    apply Henv.
Qed.

End ToolsWithoutConfig.

Lemma registered_tools_fail_without_config_witness :
  exists e, execute (createMoltbookStatusTool env_none (fixed_net (Responded empty_list))
                       api_no_key) [] ∅ initial_world = (Throw e, initial_world).
Proof.
  assert (Hbad : exists e, getCfg api_no_key = Throw e
                           \/ getApiKey env_none api_no_key = Throw e)
    by (exists missing_key_error; right; vm_compute; reflexivity).
  assert (Hin : In (createMoltbookStatusTool env_none (fixed_net (Responded empty_list))
                      api_no_key)
                   (register env_none (fixed_net (Responded empty_list)) api_no_key))
    by (left; reflexivity).
  exact (registered_tools_fail_without_config env_none (fixed_net (Responded empty_list))
           api_no_key _ [] ∅ initial_world Hbad Hin).
Defined.

Lemma registered_tools_round_trips_witness :
  List.length (fetched (snd (execute (createMoltbookStatusTool env_none
                                        (fixed_net (Responded empty_list)) api_ok)
                               [] ∅ initial_world))) = 2%nat.
Proof.
  assert (Hin : In (createMoltbookStatusTool env_none (fixed_net (Responded empty_list))
                      api_ok)
                   (register env_none (fixed_net (Responded empty_list)) api_ok))
    by (left; reflexivity).
  assert (Hret : fst (execute (createMoltbookStatusTool env_none
                                 (fixed_net (Responded empty_list)) api_ok)
                        [] ∅ initial_world)
                 = Return (envelope (VObject [(lit "me", VArray []);
                                              (lit "status", VArray [])])))
    by (vm_compute; reflexivity).
  exact (registered_tools_round_trips env_none (fixed_net (Responded empty_list))
           api_ok _ [] ∅ initial_world _ Hin Hret).
Defined.
